(** * LlamaQueryParser: a shallow embedding of [llama_parser.py]

    The parser wraps a causal language model: it builds a prompt, asks the
    model for text (with retries) and extracts the JSON document found
    between the markers [<<<JSON_START>>>] and [<<<JSON_END>>>].

    Layout of this file:
    - [Py]: the Python built-ins the script relies on ([str.find], slicing,
      [str.strip], [textwrap.dedent], exception classes, values);
    - [Runtime]: what the script calls and does not define (the environment,
      [json.loads], the model framework);
    - [Llama]: the class [LlamaQueryParser], method by method;
    - [Json] and [Script]: a JSON decoder and a scripted framework, on which
      the examples run;
    - the vocabulary of the specification, then the properties.

    Text is a [string]: a sequence of characters with code points below 256
    (the markers, the prompt template and the error messages are ASCII).
    Exceptions that do not come from a call, such as an interrupt from the
    keyboard in the middle of a method, are not modelled. *)

From Stdlib Require Import ZArith Lia List Bool Ascii String QArith.
From Stdlib Require Import DecimalString.
Import ListNotations.
Set Warnings "-register-all".
Local Open Scope string_scope.
Local Open Scope Z_scope.

(* ================================================================== *)
(** ** Python built-ins *)

Module Py.

(** [len(s)] *)
Definition len (s : string) : Z := Z.of_nat (String.length s).

Fixpoint drop (n : nat) (s : string) : string :=
  match n, s with
  | O, _ => s
  | S _, EmptyString => EmptyString
  | S k, String _ t => drop k t
  end.

Fixpoint take (n : nat) (s : string) : string :=
  match n, s with
  | O, _ => EmptyString
  | S _, EmptyString => EmptyString
  | S k, String c t => String c (take k t)
  end.

(** Index of the first position of [s] at which [sub] starts. *)
Fixpoint search (sub s : string) : option nat :=
  if String.prefix sub s then Some O
  else match s with
       | EmptyString => None
       | String _ t => option_map S (search sub t)
       end.

(** [s.find(sub, start)]: a negative [start] counts from the end of [s]
    and is clipped at 0; the answer is the lowest index at or after
    [start] where [sub] occurs, or -1. *)
Definition find (s sub : string) (start : Z) : Z :=
  let n := len s in
  let st := if start <? 0 then Z.max 0 (start + n) else start in
  if n <? st then -1
  else match search sub (drop (Z.to_nat st) s) with
       | Some i => st + Z.of_nat i
       | None => -1
       end.

(** Slice bounds as [PySlice_AdjustIndices] computes them for step 1. *)
Definition adjust (n i : Z) : Z :=
  if i <? 0 then Z.max 0 (i + n) else Z.min i n.

(** [s[a:b]] *)
Definition slice (s : string) (a b : Z) : string :=
  let n := len s in
  let a' := adjust n a in
  let b' := adjust n b in
  take (Z.to_nat (b' - a')) (drop (Z.to_nat a') s).

(** [c.isspace()] for a code point below 256. *)
Definition isspace (c : ascii) : bool :=
  let n := N_of_ascii c in
  (((9 <=? n) && (n <=? 13)) || ((28 <=? n) && (n <=? 32))
   || (n =? 133) || (n =? 160))%N.

Fixpoint lstrip (s : string) : string :=
  match s with
  | EmptyString => EmptyString
  | String c t => if isspace c then lstrip t else s
  end.

Fixpoint rstrip (s : string) : string :=
  match s with
  | EmptyString => EmptyString
  | String c t =>
      match rstrip t with
      | EmptyString => if isspace c then EmptyString else String c EmptyString
      | r => String c r
      end
  end.

(** [s.strip()] *)
Definition strip (s : string) : string := rstrip (lstrip s).

(** *** Lines and [textwrap.dedent] *)

Definition newline : ascii := "010"%char.
Definition nl : string := String newline EmptyString.

(** [s.split(nl)]: the lines of a text. *)
Fixpoint splitlines (s : string) : list string :=
  match s with
  | EmptyString => [EmptyString]
  | String c t =>
      if Ascii.eqb c newline then EmptyString :: splitlines t
      else match splitlines t with
           | l :: ls => String c l :: ls
           | [] => [String c EmptyString]
           end
  end.

(** [nl.join(ls)] *)
Definition joinlines (ls : list string) : string := String.concat nl ls.

(** A character of the class [[ \t]]. *)
Definition is_blank (c : ascii) : bool :=
  Ascii.eqb c " "%char || Ascii.eqb c "009"%char.

(** The longest prefix of the line made of blanks. *)
Fixpoint leading_blanks (l : string) : string :=
  match l with
  | EmptyString => EmptyString
  | String c t => if is_blank c then String c (leading_blanks t) else EmptyString
  end.

(** The line is not empty and made of blanks only
    (the pattern [_whitespace_only_re]). *)
Definition whitespace_only (l : string) : bool :=
  negb (String.eqb l EmptyString) && String.eqb (leading_blanks l) l.

(** What [_leading_whitespace_re] captures on the line: its indentation,
    when a character other than a blank follows it. *)
Definition indent_of (l : string) : option string :=
  let i := leading_blanks l in
  match drop (String.length i) l with
  | EmptyString => None
  | String _ _ => Some i
  end.

Fixpoint indents (ls : list string) : list string :=
  match ls with
  | [] => []
  | l :: rest =>
      match indent_of l with
      | Some i => i :: indents rest
      | None => indents rest
      end
  end.

Fixpoint common_prefix (a b : string) : string :=
  match a, b with
  | String x a', String y b' =>
      if Ascii.eqb x y then String x (common_prefix a' b') else EmptyString
  | _, _ => EmptyString
  end.

(** The loop of [dedent] over the indentations: [margin] starts as [None]
    and shrinks to what all the lines share. *)
Fixpoint margin_loop (margin : option string) (l : list string) : option string :=
  match l with
  | [] => margin
  | indent :: rest =>
      match margin with
      | None => margin_loop (Some indent) rest
      | Some m =>
          if String.prefix m indent then margin_loop (Some m) rest
          else if String.prefix indent m then margin_loop (Some indent) rest
          else margin_loop (Some (common_prefix m indent)) rest
      end
  end.

(** [re.sub(r'(?m)^' + margin, '', text)] on one line. *)
Definition remove_margin (margin l : string) : string :=
  if String.prefix margin l then drop (String.length margin) l else l.

(** [textwrap.dedent(text)], as the regular-expression implementation of
    Python 3.13 and before computes it: lines made of blanks only are
    emptied, then the margin common to the other lines is removed. *)
Definition dedent (text : string) : string :=
  let ls := map (fun l => if whitespace_only l then EmptyString else l)
                (splitlines text) in
  match margin_loop None (indents ls) with
  | Some (String c m) => joinlines (map (remove_margin (String c m)) ls)
  | _ => joinlines ls
  end.

(** *** Exceptions *)

(** The exception classes the script meets.  [KeyboardInterrupt] stands
    for the classes that derive from [BaseException] but not from
    [Exception]; [RuntimeError] for the failures of the model framework. *)
Inductive pyclass : Set :=
| KeyboardInterrupt
| Exception
| TypeError
| AttributeError
| IndexError
| RuntimeError
| ValueError
| JSONDecodeError.

Definition pyclass_eqb (c d : pyclass) : bool :=
  match c, d with
  | KeyboardInterrupt, KeyboardInterrupt | Exception, Exception
  | TypeError, TypeError | AttributeError, AttributeError
  | IndexError, IndexError
  | RuntimeError, RuntimeError | ValueError, ValueError
  | JSONDecodeError, JSONDecodeError => true
  | _, _ => false
  end.

(** [issubclass(c, d)] *)
Definition issubclass (c d : pyclass) : bool :=
  match d with
  | Exception => negb (pyclass_eqb c KeyboardInterrupt)
  | ValueError => pyclass_eqb c ValueError || pyclass_eqb c JSONDecodeError
  | _ => pyclass_eqb c d
  end.

(** An exception instance: its class and [str(e)]. *)
Record exn : Set := mk_exn { exn_class : pyclass; exn_str : string }.

(** [isinstance(e, c)] *)
Definition isinstance (e : exn) (c : pyclass) : bool :=
  issubclass (exn_class e) c.

(** What a call does: it returns a value or raises. *)
Inductive outcome (A : Type) : Type :=
| Return (a : A)
| Raise (e : exn).
Arguments Return {A} a.
Arguments Raise {A} e.

(** *** Values *)

(** The Python values [json.loads] produces, which are also the values
    [parse] returns.  A dictionary keeps its items in insertion order.
    A float is kept as the literal it was read from. *)
Inductive pyobj : Type :=
| PyNone
| PyBool (b : bool)
| PyInt (z : Z)
| PyFloat (literal : string)
| PyStr (s : string)
| PyList (items : list pyobj)
| PyDict (items : list (string * pyobj)).

End Py.

Import Py.

(* ================================================================== *)
(** ** The collaborators of the script *)

(** What the script calls and does not define: the process environment,
    [json.loads], and the model framework (transformers and torch).  A call
    into the framework is logged as an [event]; its result may depend on
    everything that happened before, which is how sampling and transient
    failures are accounted for. *)

Inductive event : Type :=
| TokenizerFromPretrained (model_id : string) (token : option string)
| ModelFromPretrained (model_id : string) (device_map : string)
                      (token : option string)
| Encode (text : string)
| EncodeIds (text : string)
| ToDevice
| Generate
| Decode
| Sleep (seconds : Z).

Class Runtime : Type := {
  Tokenizer : Type;
  Model : Type;
  Tensor : Type;
  (** [os.getenv(name)], after [load_dotenv()] *)
  getenv : string -> option string;
  (** [json.loads(s)] *)
  json_loads : string -> outcome pyobj;
  (** [AutoTokenizer.from_pretrained(model_id, trust_remote_code=True,
      token=token)] *)
  tokenizer_from_pretrained :
    list event -> string -> option string -> outcome Tokenizer;
  (** [AutoModelForCausalLM.from_pretrained(model_id,
      trust_remote_code=True, device_map=device, token=token)] *)
  model_from_pretrained :
    list event -> string -> string -> option string -> outcome Model;
  (** [tokenizer.encode(text, return_tensors="pt")] *)
  tokenizer_encode : list event -> Tokenizer -> string -> outcome Tensor;
  (** [tokenizer.encode(text, add_special_tokens=False)] *)
  tokenizer_encode_ids : list event -> Tokenizer -> string -> outcome (list Z);
  (** [inputs.to(next(model.parameters()).device)] *)
  tensor_to_device : list event -> Model -> Tensor -> outcome Tensor;
  (** [model.generate(inputs, max_new_tokens=.., do_sample=True,
      temperature=.., eos_token_id=..)] *)
  model_generate :
    list event -> Model -> Tensor -> Z -> Q -> option Z -> outcome Tensor;
  (** [outputs[0]] on a tensor *)
  tensor_getitem0 : Tensor -> outcome Tensor;
  (** [tokenizer.decode(ids, skip_special_tokens=True)] *)
  tokenizer_decode : list event -> Tokenizer -> Tensor -> outcome string
}.

(** Counting the calls of a log. *)
Fixpoint generate_calls (h : list event) : nat :=
  match h with
  | [] => O
  | Generate :: r => S (generate_calls r)
  | _ :: r => generate_calls r
  end.

Fixpoint sleeps (h : list event) : nat :=
  match h with
  | [] => O
  | Sleep _ :: r => S (sleeps r)
  | _ :: r => sleeps r
  end.

Fixpoint model_loads (h : list event) : nat :=
  match h with
  | [] => O
  | ModelFromPretrained _ _ _ :: r => S (model_loads r)
  | _ :: r => model_loads r
  end.

(* ================================================================== *)
(** ** The class [LlamaQueryParser] *)

Module Llama.

Section Parser.
Context {R : Runtime}.

(** The attributes of a parser object. *)
Record parser : Type := mk_parser {
  model_id : string;
  hf_token : option string;
  device : string;
  max_new_tokens : Z;
  temperature : Q;
  retries : Z;
  _model : option Model;
  _tokenizer : option Tokenizer
}.

(** A method runs on the parser object and on the log of the calls made
    so far; it returns or raises, and leaves both behind. *)
Record state : Type := mk_state { self : parser; trace : list event }.

Definition M (A : Type) : Type := state -> outcome A * state.

Definition ret {A : Type} (a : A) : M A := fun st => (Return a, st).

Definition raise {A : Type} (e : exn) : M A := fun st => (Raise e, st).

Definition bind {A B : Type} (m : M A) (f : A -> M B) : M B :=
  fun st =>
    match m st with
    | (Return a, st') => f a st'
    | (Raise e, st') => (Raise e, st')
    end.

(** [try: body; except cls as e: handler(e)], followed by [rest] when the
    body completes.  A handler that returns ends the method with its value;
    what follows the [try] statement is not protected by it. *)
Definition try_except {A B : Type} (body : M A) (cls : pyclass)
    (handler : exn -> M B) (rest : A -> M B) : M B :=
  fun st =>
    match body st with
    | (Return a, st') => rest a st'
    | (Raise e, st') =>
        if isinstance e cls then handler e st' else (Raise e, st')
    end.

(** A call into the framework: answered from the log, then logged. *)
Definition call {A : Type} (ev : event) (f : list event -> outcome A) : M A :=
  fun st =>
    (f (trace st), {| self := self st; trace := trace st ++ [ev] |}).

Definition get_self : M parser := fun st => (Return (self st), st).

Definition set_model (m : Model) : M unit :=
  fun st =>
    let p := self st in
    (Return tt,
     {| self := {| model_id := model_id p; hf_token := hf_token p;
                   device := device p; max_new_tokens := max_new_tokens p;
                   temperature := temperature p; retries := retries p;
                   _model := Some m; _tokenizer := _tokenizer p |};
        trace := trace st |}).

Definition set_tokenizer (t : Tokenizer) : M unit :=
  fun st =>
    let p := self st in
    (Return tt,
     {| self := {| model_id := model_id p; hf_token := hf_token p;
                   device := device p; max_new_tokens := max_new_tokens p;
                   temperature := temperature p; retries := retries p;
                   _model := _model p; _tokenizer := Some t |};
        trace := trace st |}).

(** [self._tokenizer.<method>]: the attribute holds a tokenizer once
    [__init__] has run; on [None] the attribute access raises. *)
Definition tokenizer_method (name : string) : M Tokenizer :=
  fun st =>
    match _tokenizer (self st) with
    | Some t => (Return t, st)
    | None =>
        (Raise (mk_exn AttributeError
                  ("'NoneType' object has no attribute '" ++ name ++ "'")), st)
    end.

(** [time.sleep(seconds)] *)
Definition time_sleep (seconds : Z) : M unit :=
  call (Sleep seconds) (fun _ => Return tt).

End Parser.

Declare Scope py_scope.
Delimit Scope py_scope with py.
Notation "x <- m ;; k" := (bind m (fun x => k))
  (at level 61, m at next level, right associativity) : py_scope.
Notation "m ;; k" := (bind m (fun _ => k))
  (at level 61, right associativity) : py_scope.
Local Open Scope py_scope.

Section Methods.
Context {R : Runtime}.

(** [x or y] on an optional string: [None] and the empty string are falsy. *)
Definition str_or (x : option string) (y : option string) : option string :=
  match x with
  | Some (String c s) => Some (String c s)
  | _ => y
  end.

Definition _load_tokenizer : M unit :=
  p <- get_self ;;
  t <- call (TokenizerFromPretrained (model_id p) (hf_token p))
            (fun h => tokenizer_from_pretrained h (model_id p) (hf_token p)) ;;
  set_tokenizer t.

(** [LlamaQueryParser(model_id, hf_token, device, max_new_tokens,
    temperature, retries)]: the object the constructor yields, unless the
    tokenizer cannot be loaded. *)
Definition __init__ (model_id_arg hf_token_arg : option string)
    (device_arg : string) (max_new_tokens_arg : Z) (temperature_arg : Q)
    (retries_arg : Z) (log : list event) : outcome parser * list event :=
  let getenv_default name default :=
    match getenv name with Some v => v | None => default end in
  let p :=
    {| model_id :=
         match str_or model_id_arg
                 (Some (getenv_default "MODEL_ID" "Meta-Llama-3-8B-Instruct"))
         with Some v => v | None => EmptyString end;
       hf_token := str_or hf_token_arg (getenv "HUGGINGFACE_HUB_TOKEN");
       device := device_arg;
       max_new_tokens := max_new_tokens_arg;
       temperature := temperature_arg;
       retries := retries_arg;
       _model := None;
       _tokenizer := None |} in
  match _load_tokenizer {| self := p; trace := log |} with
  | (Return _, st) => (Return (self st), trace st)
  | (Raise e, st) => (Raise e, trace st)
  end.

Definition _load_model : M Model :=
  p <- get_self ;;
  match _model p with
  | None =>
      m <- call (ModelFromPretrained (model_id p) (device p) (hf_token p))
                (fun h => model_from_pretrained h (model_id p) (device p)
                            (hf_token p)) ;;
      set_model m ;;
      ret m
  | Some m => ret m
  end.

(** [encoded[-1] if encoded else None] *)
Definition last_or_none (encoded : list Z) : option Z :=
  match encoded with
  | [] => None
  | _ :: _ => Some (List.last encoded 0)
  end.

Definition _get_stop_token_id (stop_str : string) : M (option Z) :=
  t <- tokenizer_method "encode" ;;
  encoded <- call (EncodeIds stop_str)
                  (fun h => tokenizer_encode_ids h t stop_str) ;;
  ret (last_or_none encoded).

(** The loop [for attempt in range(self.retries)] of [_generate_output],
    from iteration [attempt] on, with [remaining] iterations to go.  A loop
    that runs out of iterations falls off the end of the method, which
    then returns [None]. *)
Fixpoint retry_loop (model : Model) (inputs : Tensor)
    (remaining : nat) (attempt : Z) : M (option Tensor) :=
  match remaining with
  | O => ret None
  | S k =>
      try_except
        (p <- get_self ;;
         eos <- _get_stop_token_id "<<<JSON_END>>>" ;;
         call Generate
              (fun h => model_generate h model inputs (max_new_tokens p)
                          (temperature p) eos))
        Exception
        (fun e =>
           p <- get_self ;;
           if attempt =? retries p - 1 then raise e
           else (time_sleep 1 ;; retry_loop model inputs k (attempt + 1)))
        (fun outputs => ret (Some outputs))
  end.

Definition _generate_output (inputs : Tensor) : M (option Tensor) :=
  model <- _load_model ;;
  inputs <- call ToDevice (fun h => tensor_to_device h model inputs) ;;
  p <- get_self ;;
  retry_loop model inputs (Z.to_nat (retries p)) 0.


(** The double quote, for the text of the template. *)
Definition dq : string := String "034"%char EmptyString.

(** The f-string of [_build_prompt]: the text before the placeholder
    [{query}] and the text after it.  The lines of the literal carry the
    indentation of the source file (12 spaces), and the literal ends with
    the 8 spaces that precede its closing quotes. *)
Definition template_head : string :=
  "            You are a real estate assistant. Your job is to convert the user's request into a valid JSON object using the exact format below." ++ nl ++
  "            Output ONLY the JSON object and no other text." ++ nl ++
  "            Your entire output must consist of the following:" ++ nl ++
  "            <<<JSON_START>>>" ++ nl ++
  "            { " ++ nl ++
  "              " ++ dq ++ "layer" ++ dq ++ ": " ++ dq ++ "<string>" ++ dq ++ "," ++ nl ++
  "              " ++ dq ++ "filters" ++ dq ++ ": {" ++ nl ++
  "                " ++ dq ++ "fire_risk" ++ dq ++ ": " ++ dq ++ "<string>" ++ dq ++ "," ++ nl ++
  "                " ++ dq ++ "price" ++ dq ++ ": { " ++ dq ++ "lt" ++ dq ++ ": <number> }" ++ nl ++
  "              }" ++ nl ++
  "            }" ++ nl ++
  "            <<<JSON_END>>>" ++ nl ++
  "            Do not include any extra text, explanations, or characters." ++ nl ++
  "            User: ".

Definition template_tail : string := nl ++ "        ".

Definition prompt_fstring (query : string) : string :=
  template_head ++ query ++ template_tail.

Definition _build_prompt (query : string) : string :=
  dedent (prompt_fstring query).

Definition start_marker : string := "<<<JSON_START>>>".
Definition end_marker : string := "<<<JSON_END>>>".

Definition _extract_json (generated_text : string) : outcome pyobj :=
  let start := find generated_text start_marker 0 in
  let end_ := find generated_text end_marker start in
  if negb (start =? -1) && negb (end_ =? -1) then
    let json_str :=
      strip (slice generated_text (start + len start_marker) end_) in
    match json_loads json_str with
    | Return v => Return v
    | Raise e =>
        if isinstance e JSONDecodeError then
          Return (PyDict
            [("error", PyStr "Failed to parse JSON output from model.");
             ("raw", PyStr generated_text)])
        else Raise e
    end
  else
    Return (PyDict [("error", PyStr "No JSON output found.");
                    ("raw", PyStr generated_text)]).

(** [outputs[0]]: [outputs] is [None] when the retry loop ran no iteration. *)
Definition getitem0 (outputs : option Tensor) : M Tensor :=
  match outputs with
  | Some t => fun st => (tensor_getitem0 t, st)
  | None => raise (mk_exn TypeError "'NoneType' object is not subscriptable")
  end.

(** The body of the [try] statement of [parse]. *)
Definition generate_and_decode (inputs : Tensor) : M string :=
  outputs <- _generate_output inputs ;;
  t <- tokenizer_method "decode" ;;
  ids <- getitem0 outputs ;;
  call Decode (fun h => tokenizer_decode h t ids).

Definition parse (query : string) : M pyobj :=
  let prompt := _build_prompt query in
  t <- tokenizer_method "encode" ;;
  inputs <- call (Encode prompt) (fun h => tokenizer_encode h t prompt) ;;
  try_except
    (generate_and_decode inputs)
    Exception
    (fun e =>
       ret (PyDict [("error",
                     PyStr ("Model generation failed: " ++ exn_str e))]))
    (fun decoded => fun st => (_extract_json decoded, st)).

(** Several calls of [parse] on the same object, one after the other. *)
Fixpoint parse_all (queries : list string) (st : state)
    : list (outcome pyobj) * state :=
  match queries with
  | [] => ([], st)
  | q :: rest =>
      let (r, st') := parse q st in
      let (rs, st'') := parse_all rest st' in
      (r :: rs, st'')
  end.

End Methods.
End Llama.

Import Llama.

(* ================================================================== *)
(** ** A JSON decoder, to run the examples *)

(** [Json.loads] decodes the fragment of JSON without [\u] escapes, the way
    [json.loads] does on that fragment: it returns the value or raises
    [JSONDecodeError] (with an abridged message).  The properties below hold
    for any [json_loads]; this one only instantiates them. *)

Module Json.

Definition is_ws (c : ascii) : bool :=
  Ascii.eqb c " "%char || Ascii.eqb c "009"%char
  || Ascii.eqb c "010"%char || Ascii.eqb c "013"%char.

Fixpoint skip_ws (s : string) : string :=
  match s with
  | EmptyString => EmptyString
  | String c t => if is_ws c then skip_ws t else s
  end.

Definition is_digit (c : ascii) : bool :=
  ((48 <=? N_of_ascii c) && (N_of_ascii c <=? 57))%N.

(** The digits at the start of [s], and what follows them. *)
Fixpoint span_digits (s : string) : string * string :=
  match s with
  | EmptyString => (EmptyString, EmptyString)
  | String c t =>
      if is_digit c then let (d, r) := span_digits t in (String c d, r)
      else (EmptyString, s)
  end.

Fixpoint digits_value (acc : Z) (s : string) : Z :=
  match s with
  | EmptyString => acc
  | String c t => digits_value (10 * acc + (Z.of_N (N_of_ascii c) - 48)) t
  end.

Definition unescape (c : ascii) : option ascii :=
  if Ascii.eqb c "034"%char then Some "034"%char
  else if Ascii.eqb c "\"%char then Some "\"%char
  else if Ascii.eqb c "/"%char then Some "/"%char
  else if Ascii.eqb c "b"%char then Some "008"%char
  else if Ascii.eqb c "f"%char then Some "012"%char
  else if Ascii.eqb c "n"%char then Some "010"%char
  else if Ascii.eqb c "r"%char then Some "013"%char
  else if Ascii.eqb c "t"%char then Some "009"%char
  else None.

(** The string that starts after an opening quote, and what follows its
    closing quote. *)
Fixpoint scan_string (s : string) : option (string * string) :=
  match s with
  | EmptyString => None
  | String c t =>
      if Ascii.eqb c "034"%char then Some (EmptyString, t)
      else if Ascii.eqb c "\"%char then
        match t with
        | EmptyString => None
        | String e t' =>
            match unescape e, scan_string t' with
            | Some x, Some (r, rest) => Some (String x r, rest)
            | _, _ => None
            end
        end
      else if (N_of_ascii c <? 32)%N then None
      else match scan_string t with
           | Some (r, rest) => Some (String c r, rest)
           | None => None
           end
  end.

(** A number: an optional minus sign and an integer part without leading
    zero, then an optional fraction and an optional exponent, which make it
    a float. *)
Definition scan_number (s : string) : option (pyobj * string) :=
  let (sign, s1) :=
    match s with
    | String c t => if Ascii.eqb c "-"%char then ("-", t) else (EmptyString, s)
    | EmptyString => (EmptyString, s)
    end in
  let (ds, s2) := span_digits s1 in
  match ds with
  | EmptyString => None
  | String d0 more =>
      let (int_part, s3) :=
        if Ascii.eqb d0 "0"%char then ("0", more ++ s2) else (ds, s2) in
      let (frac, s4) :=
        match s3 with
        | String c t =>
            if Ascii.eqb c "."%char then
              match span_digits t with
              | (EmptyString, _) => (EmptyString, s3)
              | (fd, r) => ("." ++ fd, r)
              end
            else (EmptyString, s3)
        | EmptyString => (EmptyString, s3)
        end in
      let (expo, s5) :=
        match s4 with
        | String c t =>
            if Ascii.eqb c "e"%char || Ascii.eqb c "E"%char then
              let (esign, t1) :=
                match t with
                | String c1 t' =>
                    if Ascii.eqb c1 "+"%char || Ascii.eqb c1 "-"%char
                    then (String c1 EmptyString, t') else (EmptyString, t)
                | EmptyString => (EmptyString, t)
                end in
              match span_digits t1 with
              | (EmptyString, _) => (EmptyString, s4)
              | (ed, r) => (String c esign ++ ed, r)
              end
            else (EmptyString, s4)
        | EmptyString => (EmptyString, s4)
        end in
      match frac, expo with
      | EmptyString, EmptyString =>
          let v := digits_value 0 int_part in
          Some (PyInt (if String.eqb sign "-" then - v else v), s5)
      | _, _ => Some (PyFloat (sign ++ int_part ++ frac ++ expo), s5)
      end
  end.

(** [d[k] = v] *)
Fixpoint dict_set (d : list (string * pyobj)) (k : string) (v : pyobj)
    : list (string * pyobj) :=
  match d with
  | [] => [(k, v)]
  | (k', v') :: r =>
      if String.eqb k' k then (k', v) :: r else (k', v') :: dict_set r k v
  end.

(** [dict(pairs)] *)
Definition dict_of (pairs : list (string * pyobj)) : list (string * pyobj) :=
  fold_left (fun d kv => dict_set d (fst kv) (snd kv)) pairs [].

(** A word of the grammar at the start of [s]. *)
Definition keyword (w : string) (v : pyobj) (s : string)
    : option (pyobj * string) :=
  if String.prefix w s then Some (v, drop (String.length w) s) else None.

Definition first_of {A : Type} (x y : option A) : option A :=
  match x with Some _ => x | None => y end.

(** A value at the start of [s]; [scan_elements] reads the elements of an
    array after its bracket, [scan_members] the members of an object from
    the quote of a key on. *)
Fixpoint scan_value (fuel : nat) (s : string) : option (pyobj * string) :=
  match fuel with
  | O => None
  | S k =>
      match s with
      | EmptyString => None
      | String c t =>
          if Ascii.eqb c "034"%char then
            match scan_string t with
            | Some (x, r) => Some (PyStr x, r)
            | None => None
            end
          else if Ascii.eqb c "{"%char then
            match skip_ws t with
            | String c1 r =>
                if Ascii.eqb c1 "}"%char then Some (PyDict [], r)
                else match scan_members k (String c1 r) with
                     | Some (kv, r') => Some (PyDict (dict_of kv), r')
                     | None => None
                     end
            | EmptyString => None
            end
          else if Ascii.eqb c "["%char then
            match skip_ws t with
            | String c1 r =>
                if Ascii.eqb c1 "]"%char then Some (PyList [], r)
                else match scan_elements k (String c1 r) with
                     | Some (vs, r') => Some (PyList vs, r')
                     | None => None
                     end
            | EmptyString => None
            end
          else
            first_of (keyword "null" PyNone s)
           (first_of (keyword "true" (PyBool true) s)
           (first_of (keyword "false" (PyBool false) s)
           (first_of (scan_number s)
           (first_of (keyword "NaN" (PyFloat "NaN") s)
           (first_of (keyword "Infinity" (PyFloat "Infinity") s)
                     (keyword "-Infinity" (PyFloat "-Infinity") s))))))
      end
  end
with scan_elements (fuel : nat) (s : string) : option (list pyobj * string) :=
  match fuel with
  | O => None
  | S k =>
      match scan_value k s with
      | Some (v, r) =>
          match skip_ws r with
          | String c r' =>
              if Ascii.eqb c "]"%char then Some ([v], r')
              else if Ascii.eqb c ","%char then
                match scan_elements k (skip_ws r') with
                | Some (vs, r'') => Some (v :: vs, r'')
                | None => None
                end
              else None
          | EmptyString => None
          end
      | None => None
      end
  end
with scan_members (fuel : nat) (s : string)
    : option (list (string * pyobj) * string) :=
  match fuel with
  | O => None
  | S k =>
      match s with
      | String q t =>
          if Ascii.eqb q "034"%char then
            match scan_string t with
            | Some (key, r) =>
                match skip_ws r with
                | String c r1 =>
                    if Ascii.eqb c ":"%char then
                      match scan_value k (skip_ws r1) with
                      | Some (v, r2) =>
                          match skip_ws r2 with
                          | String c2 r3 =>
                              if Ascii.eqb c2 "}"%char then Some ([(key, v)], r3)
                              else if Ascii.eqb c2 ","%char then
                                match scan_members k (skip_ws r3) with
                                | Some (kvs, r4) => Some ((key, v) :: kvs, r4)
                                | None => None
                                end
                              else None
                          | EmptyString => None
                          end
                      | None => None
                      end
                    else None
                | EmptyString => None
                end
            | None => None
            end
          else None
      | EmptyString => None
      end
  end.

Definition loads (s : string) : outcome pyobj :=
  match scan_value (2 * String.length s + 2) (skip_ws s) with
  | Some (v, r) =>
      match skip_ws r with
      | EmptyString => Return v
      | String _ _ => Raise (mk_exn JSONDecodeError "Extra data")
      end
  | None => Raise (mk_exn JSONDecodeError "Expecting value")
  end.

End Json.

(* ================================================================== *)
(** ** A scripted framework, to run the examples *)

(** A stand-in for the model framework: token ids are character codes, the
    model answers [reply] whatever the prompt, and [fails k] tells whether
    the call of [generate] that follows [k] earlier ones raises. *)

Module Script.

Inductive tensor : Type :=
| Batch (rows : list (list Z))
| Ids (ids : list Z).

Definition codes (s : string) : list Z :=
  map (fun c => Z.of_N (N_of_ascii c)) (list_ascii_of_string s).

Definition text (ids : list Z) : string :=
  string_of_list_ascii (map (fun z => ascii_of_N (Z.to_N z)) ids).

Definition decimal (n : nat) : string := NilEmpty.string_of_uint (Nat.to_uint n).

Definition runtime (encode_works : bool) (fails : nat -> bool)
    (reply : string) : Runtime := {|
  Tokenizer := unit;
  Model := unit;
  Tensor := tensor;
  getenv := fun _ => None;
  json_loads := Json.loads;
  tokenizer_from_pretrained := fun _ _ _ => Return tt;
  model_from_pretrained := fun _ _ _ _ => Return tt;
  tokenizer_encode := fun _ _ s =>
    if encode_works then Return (Batch [codes s])
    else Raise (mk_exn RuntimeError "Unable to create tensor");
  tokenizer_encode_ids := fun _ _ s => Return (codes s);
  tensor_to_device := fun _ _ x => Return x;
  model_generate := fun h _ _ _ _ _ =>
    if fails (generate_calls h)
    then Raise (mk_exn RuntimeError
                  ("CUDA out of memory on call " ++ decimal (generate_calls h)))
    else Return (Batch [codes reply]);
  tensor_getitem0 := fun t =>
    match t with
    | Batch (r :: _) => Return (Ids r)
    | _ => Raise (mk_exn IndexError "index 0 is out of bounds")
    end;
  tokenizer_decode := fun _ _ t =>
    match t with
    | Ids ids => Return (text ids)
    | Batch _ => Raise (mk_exn TypeError "argument 'ids' must be a sequence of integers")
    end
|}.

(** A parser built with the default arguments of the constructor. *)
Definition default_parser (R : Runtime) (log : list event)
    : outcome (@parser R) * list event :=
  __init__ None None "auto" 150 (7 # 10) 3 log.

(** [LlamaQueryParser().parse(query)], from an empty log. *)
Definition run (R : Runtime) (query : string)
    : option (outcome pyobj * list event) :=
  match default_parser R [] with
  | (Return p, log) =>
      let (r, st) := parse query {| self := p; trace := log |} in
      Some (r, trace st)
  | (Raise _, _) => None
  end.

(** Texts a model may answer with. *)
Definition listing_json : string :=
  "{" ++ dq ++ "layer" ++ dq ++ ": " ++ dq ++ "listings" ++ dq ++ ", "
  ++ dq ++ "filters" ++ dq ++ ": {" ++ dq ++ "fire_risk" ++ dq ++ ": "
  ++ dq ++ "high" ++ dq ++ ", " ++ dq ++ "price" ++ dq ++ ": {"
  ++ dq ++ "lt" ++ dq ++ ": 600000}}}".

Definition listing_value : pyobj :=
  PyDict [("layer", PyStr "listings");
          ("filters", PyDict [("fire_risk", PyStr "high");
                              ("price", PyDict [("lt", PyInt 600000)])])].

Definition reply_with_json : string :=
  "Sure! <<<JSON_START>>>" ++ nl ++ listing_json ++ nl
  ++ "<<<JSON_END>>> Anything else? <<<JSON_END>>>".

Definition reply_with_list : string :=
  "<<<JSON_START>>> [1, 2] <<<JSON_END>>>".

Definition reply_without_markers : string :=
  "I cannot help with that.".

Definition reply_end_before_start : string :=
  "<<<JSON_END>>> and then <<<JSON_START>>> {}".

Definition reply_with_broken_json : string :=
  "<<<JSON_START>>> {layer: listings} <<<JSON_END>>>".

(** A framework that always works, and one whose [generate] never does. *)
Definition working (reply : string) : Runtime :=
  runtime true (fun _ => false) reply.

Definition failing : Runtime :=
  runtime true (fun _ => true) reply_with_json.

(** The parser [LlamaQueryParser()] once constructed, with an empty log
    behind it. *)
Definition fresh (R : Runtime) (t : @Tokenizer R) : @state R :=
  {| self := {| model_id := "Meta-Llama-3-8B-Instruct"; hf_token := None;
                device := "auto"; max_new_tokens := 150;
                temperature := 7 # 10; retries := 3;
                _model := None; _tokenizer := Some t |};
     trace := [] |}.

End Script.

(* ================================================================== *)
(** ** Vocabulary of the specification *)

(** [sub] occurs in [s] at index [i]: [s[i:i+len(sub)] == sub]. *)
Definition occurs_at (sub s : string) (i : Z) : bool :=
  (0 <=? i) && (i + len sub <=? len s)
  && String.prefix sub (drop (Z.to_nat i) s).

(** [i] is the first index at or after [from] where [sub] occurs in [s]. *)
Definition first_at (sub s : string) (from i : Z) : Prop :=
  from <= i /\ occurs_at sub s i = true /\
  forall j, from <= j < i -> occurs_at sub s j = false.

(** The three error records of the specification. *)
Definition no_json_found (raw : string) : pyobj :=
  PyDict [("error", PyStr "No JSON output found."); ("raw", PyStr raw)].

Definition parse_failure (raw : string) : pyobj :=
  PyDict [("error", PyStr "Failed to parse JSON output from model.");
          ("raw", PyStr raw)].

Definition generation_failure (detail : string) : pyobj :=
  PyDict [("error", PyStr ("Model generation failed: " ++ detail))].

(** The fixed instruction block of the prompt: the lines of the template
    without the indentation of the source file. *)
Definition instruction_block : string :=
  "You are a real estate assistant. Your job is to convert the user's request into a valid JSON object using the exact format below." ++ nl ++
  "Output ONLY the JSON object and no other text." ++ nl ++
  "Your entire output must consist of the following:" ++ nl ++
  "<<<JSON_START>>>" ++ nl ++
  "{ " ++ nl ++
  "  " ++ dq ++ "layer" ++ dq ++ ": " ++ dq ++ "<string>" ++ dq ++ "," ++ nl ++
  "  " ++ dq ++ "filters" ++ dq ++ ": {" ++ nl ++
  "    " ++ dq ++ "fire_risk" ++ dq ++ ": " ++ dq ++ "<string>" ++ dq ++ "," ++ nl ++
  "    " ++ dq ++ "price" ++ dq ++ ": { " ++ dq ++ "lt" ++ dq ++ ": <number> }" ++ nl ++
  "  }" ++ nl ++
  "}" ++ nl ++
  "<<<JSON_END>>>" ++ nl ++
  "Do not include any extra text, explanations, or characters." ++ nl.

(** The prompt of the specification: the instruction block, then the query
    as it is after the label [User:]. *)
Definition spec_prompt (query : string) : string :=
  instruction_block ++ "User: " ++ query ++ nl.

(** The text has no line feed. *)
Fixpoint single_line (s : string) : bool :=
  match s with
  | EmptyString => true
  | String c t => negb (Ascii.eqb c newline) && single_line t
  end.

(** A query of two lines. *)
Definition two_line_query : string :=
  "Find listings under 600000" ++ nl ++ "in wildfire zones".

(** Joining the lines of [a] and of [b] where [a] ends and [b] starts. *)
Fixpoint glue (la lb : list string) : list string :=
  match la with
  | [] => lb
  | x :: la' =>
      match la' with
      | [] => match lb with
              | y :: r => (x ++ y) :: r
              | [] => [x]
              end
      | _ :: _ => x :: glue la' lb
      end
  end.

Section Vocabulary.
Context {R : Runtime}.

(** What [_extract_json] makes of the text [payload] found between the
    markers of [raw]. *)
Definition decoded_payload (raw payload : string) : outcome pyobj :=
  match json_loads payload with
  | Return v => Return v
  | Raise e =>
      if isinstance e JSONDecodeError then Return (parse_failure raw)
      else Raise e
  end.

(** During [parse query], started in [st], the prompt is encoded and the
    model framework hands back the text [decoded], leaving [st']. *)
Definition decodes_to (query : string) (st : state) (decoded : string)
    (st' : state) : Prop :=
  exists t inputs,
    _tokenizer (self st) = Some t /\
    tokenizer_encode (trace st) t (_build_prompt query) = Return inputs /\
    generate_and_decode inputs
      {| self := self st;
         trace := trace st ++ [Encode (_build_prompt query)] |}
    = (Return decoded, st').

(** The calls of [n] attempts in a row: the stop token is looked up, the
    model is asked, and every attempt but the last is followed by a sleep of
    one second. *)
Fixpoint attempts (n : nat) : list event :=
  match n with
  | O => []
  | S k =>
      match k with
      | O => [EncodeIds "<<<JSON_END>>>"; Generate]
      | S _ => EncodeIds "<<<JSON_END>>>" :: Generate :: Sleep 1 :: attempts k
      end
  end.

(** The call that loads the model, when the parser does not hold it yet. *)
Definition loading (p : parser) : list event :=
  match _model p with
  | None => [ModelFromPretrained (model_id p) (device p) (hf_token p)]
  | Some _ => []
  end.

(** Every call of [generate] fails. *)
Definition generation_always_fails : Prop :=
  forall h m x n temp eos, exists e,
    model_generate h m x n temp eos = Raise e /\
    isinstance e Exception = true.

(** The calls that lead to [generate] work. *)
Definition generation_is_reached (t : Tokenizer) : Prop :=
  (forall h s, exists x, tokenizer_encode h t s = Return x) /\
  (forall h a b c, exists m, model_from_pretrained h a b c = Return m) /\
  (forall h m x, exists y, tensor_to_device h m x = Return y) /\
  (forall h s, exists ids, tokenizer_encode_ids h t s = Return ids).

(** What the framework raises derives from [Exception]. *)
Definition framework_raises_exceptions : Prop :=
  (forall h a b c e, model_from_pretrained h a b c = Raise e ->
                     isinstance e Exception = true) /\
  (forall h t s e, tokenizer_encode_ids h t s = Raise e ->
                   isinstance e Exception = true) /\
  (forall h m x e, tensor_to_device h m x = Raise e ->
                   isinstance e Exception = true) /\
  (forall h m x n temp eos e, model_generate h m x n temp eos = Raise e ->
                              isinstance e Exception = true) /\
  (forall x e, tensor_getitem0 x = Raise e -> isinstance e Exception = true) /\
  (forall h t x e, tokenizer_decode h t x = Raise e ->
                   isinstance e Exception = true).

(** The configuration of a parser: every attribute but the two handles. *)
Definition same_config (p q : parser) : Prop :=
  model_id q = model_id p /\ hf_token q = hf_token p /\
  device q = device p /\ max_new_tokens q = max_new_tokens p /\
  temperature q = temperature p /\ retries q = retries p.

(** How a method may change the state: the configuration and the tokenizer
    stay, a model that is held stays, the log grows, and no model is loaded
    when one is held. *)
Definition evolves (st st' : state) : Prop :=
  same_config (self st) (self st') /\
  _tokenizer (self st') = _tokenizer (self st) /\
  (forall m, _model (self st) = Some m -> _model (self st') = Some m) /\
  exists ext, trace st' = (trace st ++ ext)%list /\
              (_model (self st) <> None -> model_loads ext = O).

(** A method is steady when every run of it evolves the state. *)
Definition steady {A : Type} (m : M A) : Prop :=
  forall st, evolves st (snd (m st)).

(** A method is safe when all it raises derives from [Exception]. *)
Definition safe {A : Type} (m : M A) : Prop :=
  forall st e st', m st = (Raise e, st') -> isinstance e Exception = true.

End Vocabulary.

(* ================================================================== *)
(** ** More scenarios and vocabulary *)

(** A framework whose loading of the model, whose calls of [generate] (told
    apart by the number of earlier calls) and whose decoding are scripted;
    the rest works as in [Script]. *)

Module Scenario.

Definition runtime (load : outcome unit)
    (generate : nat -> outcome Script.tensor)
    (decode : Script.tensor -> outcome string) : Runtime := {|
  Tokenizer := unit;
  Model := unit;
  Tensor := Script.tensor;
  getenv := fun _ => None;
  json_loads := Json.loads;
  tokenizer_from_pretrained := fun _ _ _ => Return tt;
  model_from_pretrained := fun _ _ _ _ => load;
  tokenizer_encode := fun _ _ s => Return (Script.Batch [Script.codes s]);
  tokenizer_encode_ids := fun _ _ s => Return (Script.codes s);
  tensor_to_device := fun _ _ x => Return x;
  model_generate := fun h _ _ _ _ _ => generate (generate_calls h);
  tensor_getitem0 := fun t =>
    match t with
    | Script.Batch (r :: _) => Return (Script.Ids r)
    | _ => Raise (mk_exn IndexError "index 0 is out of bounds")
    end;
  tokenizer_decode := fun _ _ t => decode t
|}.

Definition decode_ids (t : Script.tensor) : outcome string :=
  match t with
  | Script.Ids ids => Return (Script.text ids)
  | Script.Batch _ =>
      Raise (mk_exn TypeError "argument 'ids' must be a sequence of integers")
  end.

Definition answer (reply : string) : outcome Script.tensor :=
  Return (Script.Batch [Script.codes reply]).

(** [generate] fails twice, then answers. *)
Definition flaky : Runtime :=
  runtime (Return tt)
    (fun k => if (k <? 2)%nat
              then Raise (mk_exn RuntimeError "CUDA out of memory")
              else answer Script.reply_with_json)
    decode_ids.

(** The user interrupts the first call of [generate]. *)
Definition interrupted : Runtime :=
  runtime (Return tt)
    (fun _ => Raise (mk_exn KeyboardInterrupt EmptyString))
    decode_ids.

(** The model cannot be loaded. *)
Definition unloadable : Runtime :=
  runtime (Raise (mk_exn RuntimeError "model not found"))
    (fun _ => answer Script.reply_with_json) decode_ids.

(** The generated ids cannot be decoded. *)
Definition undecodable : Runtime :=
  runtime (Return tt) (fun _ => answer Script.reply_with_json)
    (fun _ => Raise (mk_exn ValueError "invalid token id")).

(** A parser constructed with the given retry count. *)
Definition parser_with (R : Runtime) (t : @Tokenizer R) (count : Z)
    : @state R :=
  {| self := {| model_id := "Meta-Llama-3-8B-Instruct"; hf_token := None;
                device := "auto"; max_new_tokens := 150;
                temperature := 7 # 10; retries := count;
                _model := None; _tokenizer := Some t |};
     trace := [] |}.

End Scenario.

(** Since Python 3.11 the conversion of a decimal literal of more than 4300
    digits to an integer raises [ValueError], and [json.loads] lets that
    exception through.  [Limits.loads] is [Json.loads] with this limit, as
    it shows on a document made of one integer literal. *)

Module Limits.

Definition max_str_digits : nat := 4300.

(** [str(e)] of the exception raised for a literal of [n] digits. *)
Definition too_many_digits (n : nat) : exn :=
  mk_exn ValueError
    ("Exceeds the limit (4300 digits) for integer string conversion: value has "
     ++ Script.decimal n
     ++ " digits; use sys.set_int_max_str_digits() to increase the limit").

(** The digits of the document, when it is one integer literal without
    leading zero, between JSON white space. *)
Definition integer_literal (s : string) : option string :=
  let doc := Json.skip_ws s in
  let body :=
    match doc with
    | String c t => if Ascii.eqb c "-"%char then t else doc
    | EmptyString => doc
    end in
  let (ds, rest) := Json.span_digits body in
  match ds, Json.skip_ws rest with
  | String d _, EmptyString => if Ascii.eqb d "0"%char then None else Some ds
  | _, _ => None
  end.

Definition loads (s : string) : outcome pyobj :=
  match integer_literal s with
  | Some ds =>
      if (max_str_digits <? String.length ds)%nat
      then Raise (too_many_digits (String.length ds))
      else Json.loads s
  | None => Json.loads s
  end.

Fixpoint ones (n : nat) : string :=
  match n with
  | O => EmptyString
  | S k => String "1"%char (ones k)
  end.

(** A reply whose payload is an integer of 4301 digits. *)
Definition long_integer_reply : string :=
  "<<<JSON_START>>>" ++ ones 4301 ++ "<<<JSON_END>>>".

(** The framework of [Script.working], with the decoder that has the
    limit. *)
Definition runtime (reply : string) : Runtime := {|
  Tokenizer := unit;
  Model := unit;
  Tensor := Script.tensor;
  getenv := fun _ => None;
  json_loads := loads;
  tokenizer_from_pretrained := fun _ _ _ => Return tt;
  model_from_pretrained := fun _ _ _ _ => Return tt;
  tokenizer_encode := fun _ _ s => Return (Script.Batch [Script.codes s]);
  tokenizer_encode_ids := fun _ _ s => Return (Script.codes s);
  tensor_to_device := fun _ _ x => Return x;
  model_generate := fun _ _ _ _ _ _ => Scenario.answer reply;
  tensor_getitem0 := fun t =>
    match t with
    | Script.Batch (r :: _) => Return (Script.Ids r)
    | _ => Raise (mk_exn IndexError "index 0 is out of bounds")
    end;
  tokenizer_decode := fun _ _ t => Scenario.decode_ids t
|}.

End Limits.

(** What stands between the two markers of the prompt template, stripped:
    the pattern of the expected JSON, with its placeholders. *)
Definition template_placeholder : string :=
  "{ " ++ nl ++
  "  " ++ dq ++ "layer" ++ dq ++ ": " ++ dq ++ "<string>" ++ dq ++ "," ++ nl ++
  "  " ++ dq ++ "filters" ++ dq ++ ": {" ++ nl ++
  "    " ++ dq ++ "fire_risk" ++ dq ++ ": " ++ dq ++ "<string>" ++ dq ++ "," ++ nl ++
  "    " ++ dq ++ "price" ++ dq ++ ": { " ++ dq ++ "lt" ++ dq ++ ": <number> }" ++ nl ++
  "  }" ++ nl ++
  "}".

(** The seconds spent in [time.sleep] along a log. *)
Fixpoint seconds_slept (h : list event) : Z :=
  match h with
  | [] => 0
  | Sleep s :: r => s + seconds_slept r
  | _ :: r => seconds_slept r
  end.

Fixpoint decode_calls (h : list event) : nat :=
  match h with
  | [] => O
  | Decode :: r => S (decode_calls r)
  | _ :: r => decode_calls r
  end.

Section Budget.
Context {R : Runtime}.

(** From [st] to [st'] the retry count stays and the log grows by at most
    [g] calls of [generate], [s] seconds of sleep, [l] loadings of the model
    and [d] decodings. *)
Definition spent (g : nat) (s : Z) (l d : nat) (st st' : state) : Prop :=
  retries (self st') = retries (self st) /\
  exists ext,
    trace st' = (trace st ++ ext)%list /\
    (generate_calls ext <= g)%nat /\
    0 <= seconds_slept ext <= s /\
    (model_loads ext <= l)%nat /\
    (decode_calls ext <= d)%nat.

(** A method keeps to a budget on the parsers whose retry count is [r]. *)
Definition budget {A : Type} (r : Z) (g : nat) (s : Z) (l d : nat)
    (m : M A) : Prop :=
  forall st, retries (self st) = r -> spent g s l d st (snd (m st)).

(** The first [k] calls of [generate] counted from [base] fail, the next
    one returns [out]. *)
Definition fails_then_returns (base k : nat) (out : Tensor) : Prop :=
  forall h m x n temp eos,
    ((generate_calls h < base + k)%nat ->
     exists e, model_generate h m x n temp eos = Raise e /\
               isinstance e Exception = true) /\
    (generate_calls h = (base + k)%nat ->
     model_generate h m x n temp eos = Return out).

End Budget.

(* ================================================================== *)
(** * Properties *)

(** ** Strings *)

Section StringFacts.

Local Open Scope nat_scope.

Lemma length_app (a b : string) :
  String.length (a ++ b) = String.length a + String.length b.
Proof. induction a as [|c a IH]; simpl; [reflexivity | now rewrite IH]. Qed.

Lemma app_assoc (a b c : string) : (a ++ b) ++ c = a ++ b ++ c.
Proof. induction a as [|x a IH]; simpl; [reflexivity | now rewrite IH]. Qed.

Lemma app_empty_r (a : string) : a ++ EmptyString = a.
Proof. induction a as [|x a IH]; simpl; [reflexivity | now rewrite IH]. Qed.

Lemma take_drop (n : nat) (s : string) : take n s ++ drop n s = s.
Proof.
  revert s; induction n as [|n IH]; intros [|c s]; simpl; try reflexivity.
  now rewrite IH.
Qed.

Lemma length_drop (n : nat) (s : string) :
  String.length (drop n s) = String.length s - n.
Proof.
  revert s; induction n as [|n IH]; intros [|c s]; simpl; try reflexivity.
  apply IH.
Qed.

Lemma length_take (n : nat) (s : string) :
  n <= String.length s -> String.length (take n s) = n.
Proof.
  revert s; induction n as [|n IH]; intros [|c s]; simpl; intros H;
    try reflexivity; try lia.
  rewrite IH; [reflexivity | lia].
Qed.

Lemma drop_app (a b : string) (n : nat) :
  drop (String.length a + n) (a ++ b) = drop n b.
Proof. induction a as [|c a IH]; simpl; [reflexivity | exact IH]. Qed.

Lemma drop_app_exact (a b : string) : drop (String.length a) (a ++ b) = b.
Proof.
  replace (String.length a) with (String.length a + 0) by lia.
  now rewrite drop_app.
Qed.

Lemma take_app_exact (a b : string) : take (String.length a) (a ++ b) = a.
Proof. induction a as [|c a IH]; simpl; [now destruct b | now rewrite IH]. Qed.

Lemma drop_drop (n m : nat) (s : string) : drop n (drop m s) = drop (m + n) s.
Proof.
  revert s; induction m as [|m IH]; intros s; simpl; [reflexivity|].
  destruct s as [|c s]; [now destruct n | apply IH].
Qed.

Lemma drop_app_short (a b : string) (n : nat) :
  n <= String.length a -> drop n (a ++ b) = drop n a ++ b.
Proof.
  revert a; induction n as [|n IH]; intros [|c a]; simpl; intros H;
    try reflexivity; try lia.
  apply IH; lia.
Qed.

Lemma prefix_app_same (p r : string) : String.prefix p (p ++ r) = true.
Proof.
  induction p as [|c p IH]; simpl; [now destruct r|].
  destruct (ascii_dec c c) as [_|N]; [exact IH | now elim N].
Qed.

Lemma prefix_split (p s : string) :
  String.prefix p s = true -> s = p ++ drop (String.length p) s.
Proof.
  revert s; induction p as [|c p IH]; intros s H; simpl; [reflexivity|].
  destruct s as [|d s]; simpl in H; [discriminate|].
  destruct (ascii_dec c d) as [->|_]; [|discriminate].
  f_equal; now apply IH.
Qed.

Lemma prefix_length (p s : string) :
  String.prefix p s = true -> String.length p <= String.length s.
Proof.
  intros H. pose proof (f_equal String.length (prefix_split _ _ H)) as E.
  rewrite length_app in E. lia.
Qed.

(** Once [x] is at least as long as [p], what follows [x] does not matter. *)
Lemma prefix_app_long (p x y : string) :
  String.length p <= String.length x ->
  String.prefix p (x ++ y) = String.prefix p x.
Proof.
  revert x; induction p as [|c p IH]; intros x H; simpl.
  - destruct x; simpl; [now destruct y | reflexivity].
  - destruct x as [|d x]; simpl in *; [lia|].
    destruct (ascii_dec c d); [apply IH; lia | reflexivity].
Qed.

Lemma search_found (sub s : string) (i : nat) :
  search sub s = Some i ->
  String.prefix sub (drop i s) = true /\
  (forall j, j < i -> String.prefix sub (drop j s) = false).
Proof.
  revert i; induction s as [|c s IH]; intros i; cbn [search].
  - destruct (String.prefix sub EmptyString) eqn:P; [|discriminate].
    intros [= <-]. split; [exact P | lia].
  - destruct (String.prefix sub (String c s)) eqn:P.
    + intros [= <-]. split; [exact P | lia].
    + destruct (search sub s) as [k|] eqn:Q; [|discriminate].
      cbn [option_map]. intros [= <-].
      destruct (IH k eq_refl) as [H1 H2]. split; [exact H1|].
      intros [|j] Hj; [exact P | apply H2; lia].
Qed.

Lemma search_missing (sub s : string) :
  search sub s = None -> forall j, String.prefix sub (drop j s) = false.
Proof.
  induction s as [|c s IH]; cbn [search].
  - destruct (String.prefix sub EmptyString) eqn:P; [discriminate|].
    intros _ [|j]; exact P.
  - destruct (String.prefix sub (String c s)) eqn:P; [discriminate|].
    destruct (search sub s) eqn:Q; [discriminate|].
    intros _ [|j]; [exact P | now apply IH].
Qed.

(** The result of [search] is the one index with these two properties. *)
Lemma search_first (sub s : string) (i : nat) :
  String.prefix sub (drop i s) = true ->
  (forall j, j < i -> String.prefix sub (drop j s) = false) ->
  search sub s = Some i.
Proof.
  intros H1 H2. destruct (search sub s) as [k|] eqn:Q.
  - destruct (search_found _ _ _ Q) as [K1 K2].
    destruct (Nat.lt_trichotomy k i) as [L|[->|L]]; [|reflexivity|].
    + rewrite (H2 k L) in K1. discriminate.
    + rewrite (K2 i L) in H1. discriminate.
  - rewrite (search_missing _ _ Q i) in H1. discriminate.
Qed.

End StringFacts.

(** ** [str.find] *)

Section FindFacts.

Lemma search_bound (sub s : string) (k : nat) :
  search sub s = Some k -> (k + String.length sub <= String.length s)%nat.
Proof.
  revert k; induction s as [|c s IH]; intros k; cbn [search].
  - destruct (String.prefix sub EmptyString) eqn:P; [|discriminate].
    intros [= <-]. apply prefix_length in P. simpl in *. lia.
  - destruct (String.prefix sub (String c s)) eqn:P.
    + intros [= <-]. apply prefix_length in P. simpl in *. lia.
    + destruct (search sub s) as [k'|]; [|discriminate].
      cbn [option_map]. intros [= <-]. specialize (IH k' eq_refl).
      simpl. lia.
Qed.

Lemma occurs_at_true (sub s : string) (i : Z) :
  occurs_at sub s i = true <->
  0 <= i /\ i + len sub <= len s /\
  String.prefix sub (drop (Z.to_nat i) s) = true.
Proof.
  unfold occurs_at. rewrite !andb_true_iff, !Z.leb_le. tauto.
Qed.

(** A result of [find] other than -1 is the first occurrence from [from]. *)
Lemma find_first_at (s sub : string) (from i : Z) :
  0 <= from -> find s sub from = i -> i <> -1 -> first_at sub s from i.
Proof.
  intros Hf E Hi. unfold find in E.
  replace (from <? 0) with false in E by (symmetry; apply Z.ltb_ge; lia).
  destruct (len s <? from) eqn:L; [congruence|]. apply Z.ltb_ge in L.
  destruct (search sub (drop (Z.to_nat from) s)) as [k|] eqn:Q; [|congruence].
  pose proof (search_bound _ _ _ Q) as B. rewrite length_drop in B.
  destruct (search_found _ _ _ Q) as [P1 P2]. rewrite drop_drop in P1.
  unfold len in *. subst i. repeat split.
  - lia.
  - apply occurs_at_true. unfold len. repeat split; try lia.
    now replace (Z.to_nat (from + Z.of_nat k)) with (Z.to_nat from + k)%nat by lia.
  - intros j Hj. unfold occurs_at.
    replace (Z.to_nat j) with (Z.to_nat from + Z.to_nat (j - from))%nat by lia.
    rewrite <- drop_drop, P2 by lia. apply andb_false_r.
Qed.

(** [find] answers -1 only when there is no occurrence from [from] on. *)
Lemma find_missing (s sub : string) (from : Z) :
  0 <= from -> find s sub from = -1 ->
  forall j, from <= j -> occurs_at sub s j = false.
Proof.
  intros Hf E j Hj. unfold find in E.
  replace (from <? 0) with false in E by (symmetry; apply Z.ltb_ge; lia).
  destruct (occurs_at sub s j) eqn:O; [|reflexivity].
  apply occurs_at_true in O. destruct O as (O1 & O2 & O3). unfold len in *.
  destruct (Z.of_nat (String.length s) <? from) eqn:L.
  - apply Z.ltb_lt in L. lia.
  - destruct (search sub (drop (Z.to_nat from) s)) as [k|] eqn:Q; [lia|].
    pose proof (search_missing _ _ Q (Z.to_nat (j - from))) as P.
    rewrite drop_drop in P.
    replace (Z.to_nat from + Z.to_nat (j - from))%nat with (Z.to_nat j) in P by lia.
    congruence.
Qed.

(** [find] returns the first occurrence from [from] on. *)
Lemma first_at_find (s sub : string) (from i : Z) :
  0 <= from -> first_at sub s from i -> find s sub from = i.
Proof.
  intros Hf (H1 & H2 & H3). apply occurs_at_true in H2.
  destruct H2 as (O1 & O2 & O3). unfold find, len in *.
  replace (from <? 0) with false by (symmetry; apply Z.ltb_ge; lia).
  replace (Z.of_nat (String.length s) <? from) with false
    by (symmetry; apply Z.ltb_ge; lia).
  rewrite (search_first sub (drop (Z.to_nat from) s) (Z.to_nat (i - from))).
  - lia.
  - rewrite drop_drop.
    now replace (Z.to_nat from + Z.to_nat (i - from))%nat with (Z.to_nat i) by lia.
  - intros k Hk. specialize (H3 (from + Z.of_nat k) ltac:(lia)).
    unfold occurs_at, len in H3. rewrite drop_drop.
    replace (Z.to_nat (from + Z.of_nat k)) with (Z.to_nat from + k)%nat in H3 by lia.
    replace (0 <=? from + Z.of_nat k) with true in H3
      by (symmetry; apply Z.leb_le; lia).
    replace (from + Z.of_nat k + Z.of_nat (String.length sub)
             <=? Z.of_nat (String.length s)) with true in H3
      by (symmetry; apply Z.leb_le; lia).
    exact H3.
Qed.

Lemma first_at_unique (sub s : string) (from i j : Z) :
  first_at sub s from i -> first_at sub s from j -> i = j.
Proof.
  intros (A1 & A2 & A3) (B1 & B2 & B3).
  destruct (Z.lt_trichotomy i j) as [L|[E|L]]; [|exact E|].
  - rewrite (B3 i) in A2 by lia. discriminate.
  - rewrite (A3 j) in B2 by lia. discriminate.
Qed.

(** [s[a:b]] when [0 <= a <= b <= len(s)]. *)
Lemma slice_inside (s : string) (a b : Z) :
  0 <= a <= b -> b <= len s ->
  slice s a b = take (Z.to_nat (b - a)) (drop (Z.to_nat a) s).
Proof.
  intros H1 H2. unfold slice, adjust.
  replace (a <? 0) with false by (symmetry; apply Z.ltb_ge; lia).
  replace (b <? 0) with false by (symmetry; apply Z.ltb_ge; lia).
  now rewrite !Z.min_l by lia.
Qed.

End FindFacts.

(** ** [_extract_json] *)

Section ExtractFacts.
Context {R : Runtime}.

(** The end marker cannot start inside the start marker. *)
Lemma markers_apart (k : nat) (rest : string) :
  (k < 16)%nat ->
  String.prefix end_marker (drop k (start_marker ++ rest)) = false.
Proof.
  intros H. do 16 (destruct k as [|k]; [reflexivity|]). lia.
Qed.

Lemma no_overlap (s : string) (i j : Z) :
  occurs_at start_marker s i = true ->
  i <= j < i + len start_marker ->
  occurs_at end_marker s j = false.
Proof.
  intros O Hj. apply occurs_at_true in O. destruct O as (O1 & O2 & O3).
  change (len start_marker) with 16 in Hj.
  unfold occurs_at.
  replace (Z.to_nat j) with (Z.to_nat i + Z.to_nat (j - i))%nat by lia.
  rewrite <- drop_drop, (prefix_split _ _ O3), markers_apart by lia.
  apply andb_false_r.
Qed.

(** Searching the end marker from the start marker on, as the code does, or
    from the end of the start marker on, finds the same index. *)
Lemma end_after_start (s : string) (i j : Z) :
  occurs_at start_marker s i = true ->
  first_at end_marker s i j <-> first_at end_marker s (i + len start_marker) j.
Proof.
  intros O. split; intros (H1 & H2 & H3); repeat split; try exact H2.
  - destruct (Z_lt_le_dec j (i + len start_marker)) as [L|L]; [|exact L].
    rewrite (no_overlap s i j O) in H2 by lia. discriminate.
  - intros k Hk. apply H3. change (len start_marker) with 16 in *. lia.
  - change (len start_marker) with 16 in *. lia.
  - intros k Hk. destruct (Z_lt_le_dec k (i + len start_marker)) as [L|L].
    + apply (no_overlap s i k O). lia.
    + apply H3. lia.
Qed.

Lemma extract_found (text : string) (i j : Z) :
  first_at start_marker text 0 i ->
  first_at end_marker text (i + len start_marker) j ->
  _extract_json text
  = decoded_payload text (strip (slice text (i + len start_marker) j)).
Proof.
  intros Hs He.
  assert (O : occurs_at start_marker text i = true) by apply Hs.
  assert (I0 : 0 <= i) by apply Hs.
  apply (end_after_start text i j O) in He.
  assert (J0 : i <= j) by apply He.
  unfold _extract_json.
  rewrite (first_at_find _ _ _ _ (Z.le_refl 0) Hs).
  rewrite (first_at_find _ _ _ _ I0 He).
  replace (i =? -1) with false by (symmetry; apply Z.eqb_neq; lia).
  replace (j =? -1) with false by (symmetry; apply Z.eqb_neq; lia).
  reflexivity.
Qed.

Lemma extract_not_found (text : string) :
  (forall i j, occurs_at start_marker text i = true ->
               occurs_at end_marker text j = true -> j < i) ->
  _extract_json text = Return (no_json_found text).
Proof.
  intros H. unfold _extract_json.
  destruct (find text start_marker 0 =? -1) eqn:E1; [reflexivity|].
  apply Z.eqb_neq in E1.
  pose proof (find_first_at _ _ _ _ (Z.le_refl 0) eq_refl E1) as Hs.
  assert (I0 : 0 <= find text start_marker 0) by apply Hs.
  destruct (find text end_marker (find text start_marker 0) =? -1) eqn:E2;
    [reflexivity|].
  apply Z.eqb_neq in E2.
  pose proof (find_first_at _ _ _ _ I0 eq_refl E2) as (J1 & J2 & _).
  destruct Hs as (_ & S2 & _). specialize (H _ _ S2 J2). lia.
Qed.

(** When the code finds no pair of markers, there is none. *)
Lemma not_found_no_pair (text : string) :
  find text start_marker 0 = -1 \/
  find text end_marker (find text start_marker 0) = -1 ->
  forall i j, occurs_at start_marker text i = true ->
              occurs_at end_marker text j = true -> j < i.
Proof.
  intros H i j Oi Oj.
  destruct (Z_lt_le_dec j i) as [L|L]; [exact L|exfalso].
  assert (I0 : 0 <= i) by (apply occurs_at_true in Oi; lia).
  destruct (Z.eq_dec (find text start_marker 0) (-1)) as [E1|E1].
  - rewrite (find_missing _ _ _ (Z.le_refl 0) E1 i I0) in Oi. discriminate.
  - destruct H as [H|H]; [contradiction|].
    pose proof (find_first_at _ _ _ _ (Z.le_refl 0) eq_refl E1) as (S1 & S2 & S3).
    assert (find text start_marker 0 <= i).
    { destruct (Z_lt_le_dec i (find text start_marker 0)) as [K|K]; [|exact K].
      rewrite (S3 i) in Oi by lia. discriminate. }
    rewrite (find_missing _ _ _ S1 H j) in Oj by lia. discriminate.
Qed.

End ExtractFacts.

(** ** From the decoded text to the result of [parse] *)

Section ParseFacts.
Context {R : Runtime}.

(** Once the model framework has handed back a text, [parse] returns what
    [_extract_json] makes of it. *)
Lemma parse_decoded (query : string) (st st' : state) (text : string) :
  decodes_to query st text st' -> parse query st = (_extract_json text, st').
Proof.
  intros (t & inputs & Ht & He & Hg).
  unfold parse, bind, tokenizer_method, call, try_except.
  rewrite Ht, He, Hg. reflexivity.
Qed.

Lemma take_all (n : nat) (s : string) :
  (String.length s <= n)%nat -> take n s = s.
Proof.
  revert s; induction n as [|n IH]; intros [|c s]; simpl; intros H;
    try reflexivity; try lia.
  rewrite IH; [reflexivity | lia].
Qed.

(** The text splits at the two markers. *)
Lemma split_at_markers (text : string) (i j : Z) :
  occurs_at start_marker text i = true ->
  occurs_at end_marker text j = true ->
  i + len start_marker <= j ->
  text = slice text 0 i ++ start_marker
         ++ slice text (i + len start_marker) j ++ end_marker
         ++ slice text (j + len end_marker) (len text).
Proof.
  intros Oi Oj Hij.
  apply occurs_at_true in Oi. destruct Oi as (I1 & I2 & I3).
  apply occurs_at_true in Oj. destruct Oj as (J1 & J2 & J3).
  change (len start_marker) with 16 in *. change (len end_marker) with 14 in *.
  rewrite !slice_inside by lia. unfold len in *.
  apply prefix_split in I3. apply prefix_split in J3.
  rewrite drop_drop in I3, J3.
  change (String.length start_marker) with 16%nat in I3.
  change (String.length end_marker) with 14%nat in J3.
  replace (Z.to_nat (i - 0)) with (Z.to_nat i) by lia.
  replace (Z.to_nat (i + 16)) with (Z.to_nat i + 16)%nat by lia.
  replace (Z.to_nat (j + 14)) with (Z.to_nat j + 14)%nat by lia.
  rewrite (take_all _ (drop (Z.to_nat j + 14) text))
    by (rewrite length_drop; lia).
  rewrite <- J3.
  replace (drop (Z.to_nat j) text)
    with (drop (Z.to_nat (j - (i + 16))) (drop (Z.to_nat i + 16) text))
    by (rewrite drop_drop; f_equal; lia).
  rewrite take_drop, <- I3. change (Z.to_nat 0) with 0%nat.
  cbn [drop]. now rewrite take_drop.
Qed.

End ParseFacts.

(** ** The marker protocol *)

Section SliceFacts.

Lemma len_slice (s : string) (a b : Z) :
  0 <= a <= b -> b <= len s -> len (slice s a b) = b - a.
Proof.
  intros H1 H2. rewrite slice_inside by assumption. unfold len in *.
  rewrite length_take; [lia|]. rewrite length_drop. lia.
Qed.

End SliceFacts.

(** The decoder of the examples raises nothing but [JSONDecodeError]
    (which [json.loads] itself does not promise, see [Limits.loads]). *)
Lemma loads_raises_decode_error (s : string) (e : exn) :
  Json.loads s = Raise e -> isinstance e JSONDecodeError = true.
Proof.
  unfold Json.loads.
  destruct (Json.scan_value _ _) as [[v r]|]; [destruct (Json.skip_ws r)|];
    intros H; inversion H; reflexivity.
Qed.

(** C6.  Whatever the generated text, [_extract_json] either cuts it as
    [pre ++ <<<JSON_START>>> ++ mid ++ <<<JSON_END>>> ++ post], at the first
    start marker of the text and at the first end marker after that start
    marker, and hands [mid], stripped, to the JSON decoder, so that [pre] and
    [post] play no part in what is decoded; or there is no end marker after
    a start marker and it answers that no JSON was found. *)
Theorem extract_json_first_markers (R : Runtime) (text : string) :
  (exists pre mid post,
      text = pre ++ start_marker ++ mid ++ end_marker ++ post /\
      first_at start_marker text 0 (len pre) /\
      first_at end_marker text (len pre + len start_marker)
               (len pre + len start_marker + len mid) /\
      slice text (len pre + len start_marker)
            (len pre + len start_marker + len mid) = mid /\
      _extract_json text = decoded_payload text (strip mid))
  \/
  ((forall i j, occurs_at start_marker text i = true ->
                occurs_at end_marker text j = true -> j < i) /\
   _extract_json text = Return (no_json_found text)).
Proof.
  destruct (Z.eq_dec (find text start_marker 0) (-1)) as [E1|E1].
  { right. pose proof (not_found_no_pair text (or_introl E1)) as N.
    split; [exact N | now apply extract_not_found]. }
  destruct (Z.eq_dec (find text end_marker (find text start_marker 0)) (-1))
    as [E2|E2].
  { right. pose proof (not_found_no_pair text (or_intror E2)) as N.
    split; [exact N | now apply extract_not_found]. }
  left.
  pose proof (find_first_at _ _ _ _ (Z.le_refl 0) eq_refl E1) as Hs.
  set (i := find text start_marker 0) in *.
  assert (Oi : occurs_at start_marker text i = true) by apply Hs.
  assert (I0 : 0 <= i) by apply Hs.
  pose proof (find_first_at _ _ _ _ I0 eq_refl E2) as He.
  set (j := find text end_marker i) in *.
  apply (end_after_start text i j Oi) in He.
  assert (Oj : occurs_at end_marker text j = true) by apply He.
  assert (Hij : i + len start_marker <= j) by apply He.
  pose proof Oi as Oi'. pose proof Oj as Oj'.
  apply occurs_at_true in Oi'. apply occurs_at_true in Oj'.
  change (len start_marker) with 16 in *. change (len end_marker) with 14 in *.
  assert (Lp : len (slice text 0 i) = i) by (rewrite len_slice; lia).
  assert (Lm : len (slice text (i + 16) j) = j - (i + 16))
    by (rewrite len_slice; lia).
  exists (slice text 0 i), (slice text (i + 16) j),
         (slice text (j + 14) (len text)).
  rewrite Lp, Lm. replace (i + 16 + (j - (i + 16))) with j by lia.
  repeat split; try apply Hs; try apply He.
  - now apply split_at_markers.
  - now apply extract_found.
Qed.

(** C1.  When [i] is the first start marker of the text, [j] the first end
    marker after it, and the text between them, once stripped, decodes to
    the JSON value [v], of whatever shape, then [_extract_json] returns [v],
    and so does [parse] when the model framework hands back this text. *)
Theorem parse_returns_parsed_json (R : Runtime) (text : string) (i j : Z)
    (v : pyobj) :
  first_at start_marker text 0 i ->
  first_at end_marker text (i + len start_marker) j ->
  json_loads (strip (slice text (i + len start_marker) j)) = Return v ->
  _extract_json text = Return v /\
  forall query st st',
    decodes_to query st text st' -> parse query st = (Return v, st').
Proof.
  intros Hs He Hv.
  assert (E : _extract_json text = Return v).
  { rewrite (extract_found text i j Hs He). unfold decoded_payload.
    now rewrite Hv. }
  split; [exact E|]. intros query st st' D.
  now rewrite (parse_decoded query st st' text D), E.
Qed.

(** C4.  When the text has no end marker after a start marker (which
    covers a text without markers), [_extract_json] returns the record
    [{error: No JSON output found., raw: text}], and so does [parse] when the
    model framework hands back this text. *)
Theorem parse_without_markers (R : Runtime) (text : string) :
  (forall i j, occurs_at start_marker text i = true ->
               occurs_at end_marker text j = true -> j < i) ->
  _extract_json text = Return (no_json_found text) /\
  forall query st st',
    decodes_to query st text st' ->
    parse query st = (Return (no_json_found text), st').
Proof.
  intros H. pose proof (extract_not_found text H) as E.
  split; [exact E|]. intros query st st' D.
  now rewrite (parse_decoded query st st' text D), E.
Qed.

(** C5.  When both markers are found and the text between them, once
    stripped, is rejected by the JSON decoder with a [JSONDecodeError],
    [_extract_json] returns the record
    [{error: Failed to parse JSON output from model., raw: text}], and so
    does [parse] when the model framework hands back this text. *)
Theorem parse_with_invalid_json (R : Runtime) (text : string) (i j : Z)
    (e : exn) :
  first_at start_marker text 0 i ->
  first_at end_marker text (i + len start_marker) j ->
  json_loads (strip (slice text (i + len start_marker) j)) = Raise e ->
  isinstance e JSONDecodeError = true ->
  _extract_json text = Return (parse_failure text) /\
  forall query st st',
    decodes_to query st text st' ->
    parse query st = (Return (parse_failure text), st').
Proof.
  intros Hs He Hv Hc.
  assert (E : _extract_json text = Return (parse_failure text)).
  { rewrite (extract_found text i j Hs He). unfold decoded_payload.
    now rewrite Hv, Hc. }
  split; [exact E|]. intros query st st' D.
  now rewrite (parse_decoded query st st' text D), E.
Qed.

(** [_extract_json] raises only what [json.loads] raised and the handler
    let through. *)
Lemma extract_json_raises (R : Runtime) (text : string) (e : exn) :
  _extract_json text = Raise e ->
  isinstance e JSONDecodeError = false /\
  exists payload, json_loads payload = Raise e.
Proof.
  unfold _extract_json.
  destruct (negb _ && negb _); [|discriminate].
  destruct (json_loads _) as [v|e'] eqn:L; [discriminate|].
  destruct (isinstance e' JSONDecodeError) eqn:C; [discriminate|].
  intros [= <-]. split; [exact C | eauto].
Qed.

(** What [_extract_json] does on any string: it returns the decoded value
    or one of the two error records, or it raises what [json.loads] raised
    outside [JSONDecodeError]. *)
Lemma extract_json_outcome (R : Runtime) (text : string) :
  (exists v,
      _extract_json text = Return v /\
      (v = no_json_found text \/ v = parse_failure text \/
       exists payload, json_loads payload = Return v))
  \/
  (exists e payload,
      _extract_json text = Raise e /\
      json_loads payload = Raise e /\
      isinstance e JSONDecodeError = false).
Proof.
  unfold _extract_json. destruct (negb _ && negb _).
  - destruct (json_loads _) as [v|e] eqn:L.
    + left. exists v. split; [reflexivity | right; right; eauto].
    + destruct (isinstance e JSONDecodeError) eqn:C.
      * left. eexists. split; [reflexivity | right; left; reflexivity].
      * right. eauto.
  - left. eexists. split; [reflexivity | left; reflexivity].
Qed.

(** C10 (the code departs from it).  [_extract_json] is not total: its
    handler names [JSONDecodeError] alone, so when both markers are found
    and [json.loads] raises an exception of another class on the payload,
    [_extract_json] raises that exception, and so does [parse], which calls
    it after its own [try] statement. *)
Theorem extract_json_lets_other_exceptions_through (R : Runtime)
    (text : string) (i j : Z) (e : exn) :
  first_at start_marker text 0 i ->
  first_at end_marker text (i + len start_marker) j ->
  json_loads (strip (slice text (i + len start_marker) j)) = Raise e ->
  isinstance e JSONDecodeError = false ->
  _extract_json text = Raise e /\
  forall query st st',
    decodes_to query st text st' -> parse query st = (Raise e, st').
Proof.
  intros Hs He Hv Hc.
  assert (E : _extract_json text = Raise e).
  { rewrite (extract_found text i j Hs He). unfold decoded_payload.
    now rewrite Hv, Hc. }
  split; [exact E|]. intros query st st' D.
  now rewrite (parse_decoded query st st' text D), E.
Qed.

(** *** The marker protocol on the scripted framework *)

Lemma parse_returns_parsed_json_witness :
  @_extract_json (Script.working Script.reply_with_json) Script.reply_with_json
  = Return Script.listing_value /\
  fst (@parse (Script.working Script.reply_with_json)
         "Find listings under 600000 in wildfire zones"
         (Script.fresh (Script.working Script.reply_with_json) tt))
  = Return Script.listing_value.
Proof.
  set (R := Script.working Script.reply_with_json).
  set (query := "Find listings under 600000 in wildfire zones").
  destruct (parse_returns_parsed_json R Script.reply_with_json 6 104
              Script.listing_value) as [E P].
  - apply find_first_at; [lia | vm_compute; reflexivity | lia].
  - apply find_first_at; [vm_compute; discriminate | vm_compute; reflexivity | lia].
  - vm_compute. reflexivity.
  - split; [exact E|].
    assert (D : decodes_to query (Script.fresh R tt) Script.reply_with_json
                  (snd (parse query (Script.fresh R tt)))).
    { exists tt. eexists. split; [reflexivity|]. split; [reflexivity|].
      vm_compute. reflexivity. }
    rewrite (P _ _ _ D). reflexivity.
Defined.

Lemma parse_without_markers_witness :
  @_extract_json (Script.working Script.reply_end_before_start)
    Script.reply_end_before_start
  = Return (no_json_found Script.reply_end_before_start) /\
  fst (@parse (Script.working Script.reply_end_before_start)
         "Find listings under 600000 in wildfire zones"
         (Script.fresh (Script.working Script.reply_end_before_start) tt))
  = Return (no_json_found Script.reply_end_before_start).
Proof.
  set (R := Script.working Script.reply_end_before_start).
  set (query := "Find listings under 600000 in wildfire zones").
  destruct (parse_without_markers R Script.reply_end_before_start) as [E P].
  - apply not_found_no_pair. right. vm_compute. reflexivity.
  - split; [exact E|].
    assert (D : decodes_to query (Script.fresh R tt)
                  Script.reply_end_before_start
                  (snd (parse query (Script.fresh R tt)))).
    { exists tt. eexists. split; [reflexivity|]. split; [reflexivity|].
      vm_compute. reflexivity. }
    rewrite (P _ _ _ D). reflexivity.
Defined.

Lemma parse_with_invalid_json_witness :
  @_extract_json (Script.working Script.reply_with_broken_json)
    Script.reply_with_broken_json
  = Return (parse_failure Script.reply_with_broken_json) /\
  fst (@parse (Script.working Script.reply_with_broken_json)
         "Find listings under 600000 in wildfire zones"
         (Script.fresh (Script.working Script.reply_with_broken_json) tt))
  = Return (parse_failure Script.reply_with_broken_json).
Proof.
  set (R := Script.working Script.reply_with_broken_json).
  set (query := "Find listings under 600000 in wildfire zones").
  destruct (parse_with_invalid_json R Script.reply_with_broken_json 0 35
              (mk_exn JSONDecodeError "Expecting value")) as [E P].
  - apply find_first_at; [lia | vm_compute; reflexivity | lia].
  - apply find_first_at; [vm_compute; discriminate | vm_compute; reflexivity | lia].
  - vm_compute. reflexivity.
  - reflexivity.
  - split; [exact E|].
    assert (D : decodes_to query (Script.fresh R tt)
                  Script.reply_with_broken_json
                  (snd (parse query (Script.fresh R tt)))).
    { exists tt. eexists. split; [reflexivity|]. split; [reflexivity|].
      vm_compute. reflexivity. }
    rewrite (P _ _ _ D). reflexivity.
Defined.

Lemma extract_json_lets_other_exceptions_through_witness :
  @_extract_json (Limits.runtime Limits.long_integer_reply)
    Limits.long_integer_reply
  = Raise (Limits.too_many_digits 4301) /\
  fst (@parse (Limits.runtime Limits.long_integer_reply)
         "Find listings under 600000 in wildfire zones"
         (Scenario.parser_with (Limits.runtime Limits.long_integer_reply)
            tt 3))
  = Raise (Limits.too_many_digits 4301).
Proof.
  set (R := Limits.runtime Limits.long_integer_reply).
  set (query := "Find listings under 600000 in wildfire zones").
  destruct (extract_json_lets_other_exceptions_through R
              Limits.long_integer_reply 0 4317 (Limits.too_many_digits 4301))
    as [E P].
  - apply find_first_at; [lia | vm_compute; reflexivity | lia].
  - apply find_first_at; [vm_compute; discriminate | vm_compute; reflexivity | lia].
  - vm_compute. reflexivity.
  - reflexivity.
  - split; [exact E|].
    assert (D : decodes_to query (Scenario.parser_with R tt 3)
                  Limits.long_integer_reply
                  (snd (parse query (Scenario.parser_with R tt 3)))).
    { exists tt. eexists. split; [reflexivity|]. split; [reflexivity|].
      vm_compute. reflexivity. }
    rewrite (P _ _ _ D). reflexivity.
Defined.

(** ** The prompt *)

Section PromptFacts.

Lemma splitlines_cons (s : string) : exists l ls, splitlines s = l :: ls.
Proof.
  induction s as [|c s (l & ls & IH)]; simpl; [eauto|].
  destruct (Ascii.eqb c newline); [eauto|]. rewrite IH. eauto.
Qed.

Lemma splitlines_app (a b : string) :
  splitlines (a ++ b) = glue (splitlines a) (splitlines b).
Proof.
  induction a as [|c a IH]; simpl.
  - destruct (splitlines_cons b) as (l & ls & ->). reflexivity.
  - destruct (Ascii.eqb c newline).
    + rewrite IH. destruct (splitlines_cons a) as (l & ls & ->). reflexivity.
    + rewrite IH. destruct (splitlines_cons a) as (l & ls & ->).
      destruct ls as [|l' ls]; simpl.
      * destruct (splitlines_cons b) as (y & r & ->). reflexivity.
      * reflexivity.
Qed.

Lemma splitlines_single_line (s : string) :
  single_line s = true -> splitlines s = [s].
Proof.
  induction s as [|c s IH]; simpl; [reflexivity|].
  destruct (Ascii.eqb c newline); simpl; [discriminate|].
  intros H. now rewrite IH.
Qed.

(** With a query of one line, [dedent] works on the lines of the template:
    it removes their 12 spaces and empties the last one. *)
Lemma build_prompt_single_line (query : string) :
  single_line query = true -> _build_prompt query = spec_prompt query.
Proof.
  intros H. unfold _build_prompt, dedent, prompt_fstring.
  rewrite splitlines_app, (splitlines_app query),
    (splitlines_single_line query H).
  replace (glue [query] (splitlines template_tail)) with [query; "        "]
    by (cbn; now rewrite app_empty_r).
  vm_compute. reflexivity.
Qed.

(** No block of text precedes the label [User:] in all the prompts. *)
Lemma build_prompt_no_fixed_block :
  ~ exists block, forall query,
      _build_prompt query = block ++ "User: " ++ query ++ nl.
Proof.
  intros [block H].
  pose proof (H EmptyString) as H0. pose proof (H two_line_query) as H2.
  vm_compute in H0, H2.
  destruct block as [|c block]; [discriminate|].
  injection H0 as E0 _. injection H2 as E2 _. congruence.
Qed.

End PromptFacts.

(** C7 (the code departs from it).  With the two-line query, the prompt is
    the template with the indentation of the source file left in, not the
    instruction block followed by the query: [dedent] runs on the text that
    already holds the query, and the second line of the query, which starts
    in the first column, leaves it no margin to remove. *)
Theorem build_prompt_two_line_query :
  _build_prompt two_line_query = template_head ++ two_line_query ++ nl /\
  _build_prompt two_line_query <> spec_prompt two_line_query.
Proof.
  split; [vm_compute; reflexivity | vm_compute; discriminate].
Qed.

(** ** What a method may change *)

Section Frame.
Context {R : Runtime}.

Lemma model_loads_app (h k : list event) :
  model_loads (h ++ k) = (model_loads h + model_loads k)%nat.
Proof.
  induction h as [|ev h IH]; simpl; [reflexivity|].
  destruct ev; simpl; rewrite IH; reflexivity.
Qed.

Lemma evolves_refl (st : state) : evolves st st.
Proof.
  repeat split; auto. exists []. split; [now rewrite app_nil_r | reflexivity].
Qed.

Lemma evolves_trans (a b c : state) : evolves a b -> evolves b c -> evolves a c.
Proof.
  intros (C1 & T1 & M1 & e1 & E1 & L1) (C2 & T2 & M2 & e2 & E2 & L2).
  unfold same_config in *. repeat split; try intuition congruence.
  - intros m H. auto.
  - exists (e1 ++ e2)%list. split.
    + rewrite E2, E1. now rewrite <- List.app_assoc.
    + intros N. rewrite model_loads_app, (L1 N).
      destruct (_model (self a)) as [m|] eqn:Ma; [|congruence].
      rewrite L2; [reflexivity|]. rewrite (M1 m eq_refl). discriminate.
Qed.

Lemma steady_ret {A : Type} (a : A) : steady (ret a).
Proof. intros st. apply evolves_refl. Qed.

Lemma steady_raise {A : Type} (e : exn) : steady (@raise R A e).
Proof. intros st. apply evolves_refl. Qed.

Lemma steady_get_self : steady get_self.
Proof. intros st. apply evolves_refl. Qed.

Lemma steady_pure {A : Type} (f : outcome A) : steady (fun st => (f, st)).
Proof. intros st. apply evolves_refl. Qed.

Lemma steady_bind {A B : Type} (m : M A) (f : A -> M B) :
  steady m -> (forall a, steady (f a)) -> steady (bind m f).
Proof.
  intros Hm Hf st. unfold bind. specialize (Hm st).
  destruct (m st) as [[a|e] st1]; simpl in *; [|exact Hm].
  eapply evolves_trans; [exact Hm | apply Hf].
Qed.

Lemma steady_try_except {A B : Type} (body : M A) (cls : pyclass)
    (handler : exn -> M B) (rest : A -> M B) :
  steady body -> (forall e, steady (handler e)) -> (forall a, steady (rest a)) ->
  steady (try_except body cls handler rest).
Proof.
  intros Hb Hh Hr st. unfold try_except. specialize (Hb st).
  destruct (body st) as [[a|e] st1]; simpl in *.
  - eapply evolves_trans; [exact Hb | apply Hr].
  - destruct (isinstance e cls); [|exact Hb].
    eapply evolves_trans; [exact Hb | apply Hh].
Qed.

(** A call that is not the loading of the model. *)
Lemma steady_call {A : Type} (ev : event) (f : list event -> outcome A) :
  model_loads [ev] = O -> steady (call ev f).
Proof.
  intros H st. unfold call; simpl. repeat split; auto.
  exists [ev]. split; [reflexivity | intros _; exact H].
Qed.

Lemma steady_tokenizer_method (name : string) : steady (tokenizer_method name).
Proof.
  intros st. unfold tokenizer_method.
  destruct (_tokenizer (self st)); apply evolves_refl.
Qed.

Lemma steady_getitem0 (outputs : option Tensor) : steady (getitem0 outputs).
Proof. destruct outputs; [apply steady_pure | apply steady_raise]. Qed.

(** [_load_model] calls the framework only when no model is held. *)
Lemma steady_load_model : steady _load_model.
Proof.
  intros st. unfold _load_model, bind, get_self, call, set_model, ret.
  destruct (_model (self st)) as [m|] eqn:E; simpl; [apply evolves_refl|].
  destruct (model_from_pretrained _ _ _ _) as [m|e]; simpl;
    (repeat split; simpl; auto; try congruence;
     eexists; split; [reflexivity | congruence]).
Qed.

Create HintDb steady.
Hint Resolve steady_ret steady_raise steady_get_self steady_pure steady_bind
  steady_try_except steady_tokenizer_method steady_getitem0
  steady_load_model : steady.
Hint Extern 2 (steady (call _ _)) => (apply steady_call; reflexivity) : steady.

Lemma steady_time_sleep (seconds : Z) : steady (time_sleep seconds).
Proof. unfold time_sleep. auto with steady. Qed.

Lemma steady_get_stop_token_id (stop_str : string) :
  steady (_get_stop_token_id stop_str).
Proof. unfold _get_stop_token_id. auto 6 with steady. Qed.

Hint Resolve steady_time_sleep steady_get_stop_token_id : steady.

Lemma steady_retry_loop (model : Model) (inputs : Tensor) (n : nat) :
  forall attempt, steady (retry_loop model inputs n attempt).
Proof.
  induction n as [|n IH]; intros attempt; cbn [retry_loop];
    [auto with steady|].
  apply steady_try_except; [auto 6 with steady | | auto with steady].
  intros e. apply steady_bind; [auto with steady|]. intros p.
  destruct (attempt =? retries p - 1); auto with steady.
Qed.

Lemma steady_generate_output (inputs : Tensor) :
  steady (_generate_output inputs).
Proof.
  unfold _generate_output.
  repeat (apply steady_bind; [auto with steady | intros ?]).
  apply steady_retry_loop.
Qed.

Lemma steady_parse (query : string) : steady (parse query).
Proof.
  unfold parse, generate_and_decode.
  pose proof steady_generate_output. auto 8 with steady.
Qed.

Lemma parse_all_evolves (queries : list string) (st : state) :
  evolves st (snd (parse_all queries st)).
Proof.
  revert st; induction queries as [|q qs IH]; intros st; simpl;
    [apply evolves_refl|].
  pose proof (steady_parse q st) as H.
  destruct (parse q st) as [r st1]. specialize (IH st1).
  destruct (parse_all qs st1) as [rs st2]. simpl in *.
  eapply evolves_trans; eassumption.
Qed.

End Frame.

(** ** The attributes of the parser *)

Lemma init_outcome (R : Runtime) (a b : option string) (dev : string)
    (mnt : Z) (temp : Q) (rt : Z) (log : list event) :
  let mid :=
    match a with
    | Some (String c s) => String c s
    | _ => match getenv "MODEL_ID" with
           | Some v => v
           | None => "Meta-Llama-3-8B-Instruct"
           end
    end in
  let tok :=
    match b with
    | Some (String c s) => Some (String c s)
    | _ => getenv "HUGGINGFACE_HUB_TOKEN"
    end in
  __init__ a b dev mnt temp rt log
  = match tokenizer_from_pretrained log mid tok with
    | Return t =>
        (Return {| model_id := mid; hf_token := tok; device := dev;
                   max_new_tokens := mnt; temperature := temp; retries := rt;
                   _model := None; _tokenizer := Some t |},
         (log ++ [TokenizerFromPretrained mid tok])%list)
    | Raise e => (Raise e, (log ++ [TokenizerFromPretrained mid tok])%list)
    end.
Proof.
  unfold __init__, _load_tokenizer, bind, get_self, call, set_tokenizer, str_or.
  cbn.
  destruct a as [[|c s]|], b as [[|c' s']|]; cbn;
    destruct (tokenizer_from_pretrained _ _ _); reflexivity.
Qed.

(** C8.  The constructor stores its arguments (an absent or empty model
    identifier or token being looked up in the environment), and no call of
    [parse], nor any sequence of calls, changes the model identifier, the
    token, the device, the generation length, the temperature, the retry
    count or the tokenizer; the model handle is the only attribute that is
    ever assigned, and only while it is [None]. *)
Theorem parse_keeps_configuration (R : Runtime) :
  (forall a b dev mnt temp rt log,
     match __init__ a b dev mnt temp rt log with
     | (Return p, _) =>
         model_id p = match a with
                      | Some (String c s) => String c s
                      | _ => match getenv "MODEL_ID" with
                             | Some v => v
                             | None => "Meta-Llama-3-8B-Instruct"
                             end
                      end /\
         hf_token p = match b with
                      | Some (String c s) => Some (String c s)
                      | _ => getenv "HUGGINGFACE_HUB_TOKEN"
                      end /\
         device p = dev /\ max_new_tokens p = mnt /\
         temperature p = temp /\ retries p = rt
     | (Raise _, _) => True
     end) /\
  (forall query st,
     same_config (self st) (self (snd (parse query st))) /\
     _tokenizer (self (snd (parse query st))) = _tokenizer (self st) /\
     (forall m, _model (self st) = Some m ->
                _model (self (snd (parse query st))) = Some m)) /\
  (forall queries st,
     same_config (self st) (self (snd (parse_all queries st))) /\
     _tokenizer (self (snd (parse_all queries st))) = _tokenizer (self st) /\
     (forall m, _model (self st) = Some m ->
                _model (self (snd (parse_all queries st))) = Some m)).
Proof.
  split; [|split].
  - intros. rewrite init_outcome.
    destruct (tokenizer_from_pretrained _ _ _); cbn; auto 10.
  - intros query st. destruct (steady_parse query st) as (C & T & M & _). auto.
  - intros queries st.
    destruct (parse_all_evolves queries st) as (C & T & M & _). auto.
Qed.

(** ** The model handle *)

(** C9.  The constructor loads no model and leaves the handle empty; a call
    of [_load_model] on an empty handle asks the framework once and keeps
    what it gets; a call on a filled handle returns that handle and does
    nothing else; and once the handle is filled no sequence of calls of
    [parse] loads a model again or replaces the handle. *)
Theorem model_loaded_lazily_and_once (R : Runtime) :
  (forall a b dev mnt temp rt log,
     match __init__ a b dev mnt temp rt log with
     | (Return p, log') =>
         _model p = None /\ model_loads log' = model_loads log
     | (Raise _, log') => model_loads log' = model_loads log
     end) /\
  (forall st,
     _model (self st) = None ->
     let p := self st in
     let ev := ModelFromPretrained (model_id p) (device p) (hf_token p) in
     match model_from_pretrained (trace st) (model_id p) (device p)
             (hf_token p) with
     | Return m =>
         exists st', _load_model st = (Return m, st') /\
                     _model (self st') = Some m /\
                     trace st' = (trace st ++ [ev])%list
     | Raise e =>
         exists st', _load_model st = (Raise e, st') /\
                     _model (self st') = None /\
                     trace st' = (trace st ++ [ev])%list
     end) /\
  (forall st m, _model (self st) = Some m -> _load_model st = (Return m, st)) /\
  (forall st m queries,
     _model (self st) = Some m ->
     _model (self (snd (parse_all queries st))) = Some m /\
     model_loads (trace (snd (parse_all queries st))) = model_loads (trace st)).
Proof.
  repeat split.
  - intros. rewrite init_outcome.
    destruct (tokenizer_from_pretrained _ _ _); cbn;
      rewrite model_loads_app; cbn; auto with arith.
  - intros st H p ev. subst p ev.
    unfold _load_model, bind, get_self, call, set_model, ret. rewrite H.
    destruct (model_from_pretrained _ _ _ _) as [m|e]; cbn;
      eexists; repeat split; cbn; auto.
  - intros st m H. unfold _load_model, bind, get_self, ret. now rewrite H.
  - destruct (parse_all_evolves queries st) as (_ & _ & M & _). auto.
  - destruct (parse_all_evolves queries st) as (_ & _ & _ & ext & E & L).
    rewrite E, model_loads_app, L; [lia | congruence].
Qed.

(** ** The retry loop *)

Section Retry.
Context {R : Runtime}.

Lemma generate_calls_app (h k : list event) :
  generate_calls (h ++ k) = (generate_calls h + generate_calls k)%nat.
Proof.
  induction h as [|ev h IH]; simpl; [reflexivity|].
  destruct ev; simpl; rewrite IH; reflexivity.
Qed.

Lemma sleeps_app (h k : list event) :
  sleeps (h ++ k) = (sleeps h + sleeps k)%nat.
Proof.
  induction h as [|ev h IH]; simpl; [reflexivity|].
  destruct ev; simpl; rewrite IH; reflexivity.
Qed.

Lemma attempts_step (n : nat) :
  attempts (S (S n))
  = EncodeIds "<<<JSON_END>>>" :: Generate :: Sleep 1 :: attempts (S n).
Proof. reflexivity. Qed.

(** [n] attempts call [generate] [n] times and sleep in between. *)
Lemma attempts_counts (n : nat) :
  generate_calls (attempts n) = n /\ sleeps (attempts n) = Nat.pred n.
Proof.
  induction n as [|[|n] [IH1 IH2]]; [split; reflexivity ..|].
  rewrite attempts_step. cbn [generate_calls sleeps]. rewrite IH1, IH2.
  split; reflexivity.
Qed.

Lemma loading_counts (p : parser) :
  generate_calls (loading p) = O /\ sleeps (loading p) = O.
Proof. unfold loading. destruct (_model p); split; reflexivity. Qed.

Lemma get_stop_token_id_run (p : parser) (h : list event) (t : Tokenizer)
    (ids : list Z) (s : string) :
  _tokenizer p = Some t ->
  tokenizer_encode_ids h t s = Return ids ->
  _get_stop_token_id s {| self := p; trace := h |}
  = (Return (last_or_none ids), {| self := p; trace := h ++ [EncodeIds s] |}).
Proof.
  intros Ht He. unfold _get_stop_token_id, bind, tokenizer_method, call, ret.
  cbn. rewrite Ht. cbn. rewrite He. reflexivity.
Qed.

(** When every call of [generate] fails, the loop makes all its attempts and
    raises what the last call raised. *)
Lemma retry_loop_all_fail (m : Model) (x : Tensor) (t : Tokenizer) :
  generation_always_fails ->
  (forall h s, exists ids, tokenizer_encode_ids h t s = Return ids) ->
  forall n attempt p h,
    _tokenizer p = Some t ->
    attempt + Z.of_nat (S n) = retries p ->
    exists e eos,
      retry_loop m x (S n) attempt {| self := p; trace := h |}
      = (Raise e, {| self := p; trace := h ++ attempts (S n) |}) /\
      model_generate (removelast (h ++ attempts (S n))) m x
        (max_new_tokens p) (temperature p) eos = Raise e /\
      isinstance e Exception = true.
Proof.
  intros Hg Hi. induction n as [|n IH]; intros attempt p h Ht Ha.
  - destruct (Hi h "<<<JSON_END>>>") as [ids Hids].
    destruct (Hg (h ++ [EncodeIds "<<<JSON_END>>>"])%list m x (max_new_tokens p)
                (temperature p) (last_or_none ids)) as (e & He & Hc).
    exists e, (last_or_none ids).
    replace (h ++ attempts 1)%list
      with ((h ++ [EncodeIds "<<<JSON_END>>>"]) ++ [Generate])%list
      by (now rewrite <- List.app_assoc).
    rewrite removelast_last. split; [|split; assumption].
    cbn [retry_loop]. unfold try_except, bind at 1, get_self.
    cbn -[isinstance]. unfold bind. rewrite (get_stop_token_id_run p h t ids _ Ht Hids).
    unfold call. cbn -[isinstance]. rewrite He, Hc. cbn.
    replace (attempt =? retries p - 1) with true
      by (symmetry; apply Z.eqb_eq; lia).
    reflexivity.
  - destruct (Hi h "<<<JSON_END>>>") as [ids Hids].
    destruct (Hg (h ++ [EncodeIds "<<<JSON_END>>>"])%list m x (max_new_tokens p)
                (temperature p) (last_or_none ids)) as (e0 & He0 & Hc0).
    destruct (IH (attempt + 1) p
                 (((h ++ [EncodeIds "<<<JSON_END>>>"]) ++ [Generate])
                    ++ [Sleep 1])%list Ht ltac:(lia))
      as (e & eos & Hrun & Hlast & Hc).
    replace ((((h ++ [EncodeIds "<<<JSON_END>>>"]) ++ [Generate])
                ++ [Sleep 1]) ++ attempts (S n))%list
      with (h ++ attempts (S (S n)))%list in Hrun, Hlast
      by (rewrite attempts_step, <- !List.app_assoc; reflexivity).
    exists e, eos. split; [|split; assumption].
    cbn [retry_loop]. unfold try_except, bind at 1, get_self.
    cbn -[isinstance retry_loop]. unfold bind at 1. rewrite (get_stop_token_id_run p h t ids _ Ht Hids).
    unfold call at 1. cbn -[isinstance retry_loop]. rewrite He0, Hc0.
    unfold bind at 1. cbn.
    replace (attempt =? retries p - 1) with false
      by (symmetry; apply Z.eqb_neq; lia).
    unfold bind at 1, time_sleep, call at 1. cbn. exact Hrun.
Qed.

(** With no iteration to run, the loop hands back [None]. *)
Lemma retry_loop_no_iteration (m : Model) (x : Tensor) (attempt : Z)
    (st : state) :
  retry_loop m x O attempt st = (Return None, st).
Proof. reflexivity. Qed.

End Retry.

Section GenerationFailure.
Context {R : Runtime}.

Lemma load_model_run (p : parser) (h : list event) :
  (forall h a b c, exists m, model_from_pretrained h a b c = Return m) ->
  exists m p',
    _load_model {| self := p; trace := h |}
    = (Return m, {| self := p'; trace := h ++ loading p |}) /\
    _tokenizer p' = _tokenizer p /\ retries p' = retries p /\
    max_new_tokens p' = max_new_tokens p /\ temperature p' = temperature p.
Proof.
  intros Hl. unfold _load_model, bind, get_self, call, set_model, ret, loading.
  cbn. destruct (_model p) as [m|] eqn:E.
  - exists m, p. rewrite app_nil_r. auto.
  - destruct (Hl h (model_id p) (device p) (hf_token p)) as [m Hm].
    cbn [self trace]. rewrite Hm. eexists m, _. split; [reflexivity|].
    cbn. auto.
Qed.

(** [_generate_output], when the model can be loaded and moved to but never
    generates: it raises what the last attempt raised. *)
Lemma generate_output_all_fail (t : Tokenizer) (x : Tensor) (p : parser)
    (h : list event) :
  0 < retries p ->
  _tokenizer p = Some t ->
  generation_is_reached t ->
  generation_always_fails ->
  exists e p' m y eos,
    _generate_output x {| self := p; trace := h |}
    = (Raise e,
       {| self := p';
          trace := h ++ loading p ++ ToDevice
                     :: attempts (Z.to_nat (retries p)) |}) /\
    model_generate
      (removelast (h ++ loading p ++ ToDevice
                     :: attempts (Z.to_nat (retries p))))
      m y (max_new_tokens p) (temperature p) eos = Raise e /\
    isinstance e Exception = true.
Proof.
  intros Hr Ht (_ & Hl & Hd & Hi) Hg.
  destruct (load_model_run p h Hl) as (m & p' & Hrun & T' & R' & N' & Q').
  destruct (Hd (h ++ loading p)%list m x) as [y Hy].
  destruct (Z.to_nat (retries p)) as [|k] eqn:N; [lia|].
  destruct (retry_loop_all_fail m y t Hg Hi k 0 p'
              ((h ++ loading p) ++ [ToDevice])%list)
    as (e & eos & Hloop & Hlast & Hc); [congruence | lia |].
  replace (((h ++ loading p) ++ [ToDevice]) ++ attempts (S k))%list
    with (h ++ loading p ++ ToDevice :: attempts (S k))%list in Hloop, Hlast
    by (rewrite <- !List.app_assoc; reflexivity).
  exists e, p', m, y, eos. rewrite <- N', <- Q'. split; [|split; assumption].
  unfold _generate_output, bind at 1. rewrite Hrun.
  unfold bind at 1, call at 1. cbn [trace self]. rewrite Hy.
  unfold bind, get_self. cbn [self fst snd]. rewrite R', N. exact Hloop.
Qed.

End GenerationFailure.

(** C2.  Take a parser whose retry count is positive, and a framework in
    which everything works but [generate], which fails at every call.  Then
    [parse] encodes the prompt, loads the model if it does not hold it, moves
    the input, makes exactly [retries] attempts with a sleep of one second
    between two attempts, and returns the record
    [{error: Model generation failed: <detail>}] whose detail is the text of
    the exception raised by the last call of [generate]; it does not raise. *)
Theorem parse_reports_generation_failure (R : Runtime) (query : string)
    (st : state) (t : Tokenizer) :
  0 < retries (self st) ->
  _tokenizer (self st) = Some t ->
  generation_is_reached t ->
  generation_always_fails ->
  exists e st' m x eos,
    parse query st = (Return (generation_failure (exn_str e)), st') /\
    trace st'
    = (trace st ++ Encode (_build_prompt query) :: loading (self st)
         ++ ToDevice :: attempts (Z.to_nat (retries (self st))))%list /\
    model_generate (removelast (trace st')) m x
      (max_new_tokens (self st)) (temperature (self st)) eos = Raise e /\
    Z.of_nat (generate_calls (trace st'))
    = Z.of_nat (generate_calls (trace st)) + retries (self st) /\
    Z.of_nat (sleeps (trace st'))
    = Z.of_nat (sleeps (trace st)) + retries (self st) - 1.
Proof.
  intros Hr Ht Hreach Hg. destruct st as [p h]. cbn [self trace] in *.
  destruct (proj1 Hreach h (_build_prompt query)) as [x0 Hx0].
  destruct (generate_output_all_fail t x0 p
              (h ++ [Encode (_build_prompt query)])%list Hr Ht Hreach Hg)
    as (e & p' & m & y & eos & Hrun & Hlast & Hc).
  replace ((h ++ [Encode (_build_prompt query)]) ++ loading p ++ ToDevice
             :: attempts (Z.to_nat (retries p)))%list
    with (h ++ Encode (_build_prompt query) :: loading p ++ ToDevice
            :: attempts (Z.to_nat (retries p)))%list in Hrun, Hlast
    by (rewrite <- List.app_assoc; reflexivity).
  eexists e, _, m, y, eos. split; [|split; [|split; [|split]]].
  - unfold parse, bind at 1, tokenizer_method. cbn [self]. rewrite Ht.
    unfold bind at 1, call at 1. cbn [trace self]. rewrite Hx0.
    unfold try_except, generate_and_decode, bind at 1. rewrite Hrun, Hc.
    reflexivity.
  - reflexivity.
  - exact Hlast.
  - cbn [trace]. rewrite generate_calls_app. cbn [generate_calls].
    rewrite generate_calls_app, (proj1 (loading_counts p)).
    cbn [generate_calls]. rewrite (proj1 (attempts_counts _)). lia.
  - cbn [trace]. rewrite sleeps_app. cbn [sleeps].
    rewrite sleeps_app, (proj2 (loading_counts p)).
    cbn [sleeps]. rewrite (proj2 (attempts_counts _)). lia.
Qed.

Lemma parse_reports_generation_failure_witness :
  exists e st' m x eos,
    @parse Script.failing "Find listings under 600000 in wildfire zones"
      (Script.fresh Script.failing tt)
    = (Return (generation_failure (exn_str e)), st') /\
    trace st'
    = [Encode (_build_prompt "Find listings under 600000 in wildfire zones");
       ModelFromPretrained "Meta-Llama-3-8B-Instruct" "auto" None;
       ToDevice;
       EncodeIds "<<<JSON_END>>>"; Generate; Sleep 1;
       EncodeIds "<<<JSON_END>>>"; Generate; Sleep 1;
       EncodeIds "<<<JSON_END>>>"; Generate] /\
    @model_generate Script.failing (removelast (trace st')) m x 150 (7 # 10) eos
    = Raise e /\
    Z.of_nat (generate_calls (trace st')) = 0 + 3 /\
    Z.of_nat (sleeps (trace st')) = 0 + 3 - 1.
Proof.
  apply (parse_reports_generation_failure Script.failing
           "Find listings under 600000 in wildfire zones"
           (Script.fresh Script.failing tt) tt).
  - reflexivity.
  - reflexivity.
  - repeat split; intros; eexists; reflexivity.
  - intros h m x n temp eos. eexists. split; reflexivity.
Defined.

(** On the scripted framework, the detail is that of the third failure. *)
Example parse_reports_last_failure :
  fst (@parse Script.failing "Find listings under 600000 in wildfire zones"
         (Script.fresh Script.failing tt))
  = Return (generation_failure "CUDA out of memory on call 2").
Proof. vm_compute. reflexivity. Qed.

(** With a retry count of zero or less no attempt is made, and the failure
    reported is that of indexing [None]. *)
Lemma parse_without_attempt (R : Runtime) (query : string) (st : state)
    (t : Tokenizer) :
  retries (self st) <= 0 ->
  _tokenizer (self st) = Some t ->
  generation_is_reached t ->
  exists st',
    parse query st
    = (Return (generation_failure "'NoneType' object is not subscriptable"),
       st') /\
    generate_calls (trace st') = generate_calls (trace st).
Proof.
  intros Hr Ht (He & Hl & Hd & _). destruct st as [p h]. cbn [self trace] in *.
  destruct (He h (_build_prompt query)) as [x0 Hx0].
  destruct (load_model_run p (h ++ [Encode (_build_prompt query)])%list Hl)
    as (m & p' & Hrun & T' & R' & _).
  destruct (Hd ((h ++ [Encode (_build_prompt query)]) ++ loading p)%list m x0)
    as [y Hy].
  eexists. split.
  - unfold parse, bind at 1, tokenizer_method. cbn [self]. rewrite Ht.
    unfold bind at 1, call at 1. cbn [trace self]. rewrite Hx0.
    unfold try_except, generate_and_decode, bind at 1, _generate_output,
      bind at 1.
    rewrite Hrun. unfold bind at 1, call at 1. cbn [trace self]. rewrite Hy.
    unfold bind at 1, get_self. cbn [self fst snd]. rewrite R'.
    replace (Z.to_nat (retries p)) with O by lia.
    cbn [retry_loop]. unfold ret at 1, bind at 1, tokenizer_method.
    cbn [self]. rewrite T', Ht. reflexivity.
  - cbn [trace]. rewrite !generate_calls_app, (proj1 (loading_counts p)).
    cbn. lia.
Qed.

(** ** What [parse] raises *)

Section Safety.
Context {R : Runtime}.

Lemma safe_ret {A : Type} (a : A) : safe (ret a).
Proof. intros st e st' H. discriminate. Qed.

Lemma safe_get_self : safe get_self.
Proof. intros st e st' H. discriminate. Qed.

Lemma safe_raise {A : Type} (e : exn) :
  isinstance e Exception = true -> safe (@raise R A e).
Proof. intros H st e' st' [= <- _]. exact H. Qed.

Lemma safe_bind {A B : Type} (m : M A) (f : A -> M B) :
  safe m -> (forall a, safe (f a)) -> safe (bind m f).
Proof.
  intros Hm Hf st e st'. unfold bind.
  destruct (m st) as [[a|e0] st1] eqn:E.
  - apply Hf.
  - intros [= <- _]. eapply Hm; eassumption.
Qed.

Lemma safe_call {A : Type} (ev : event) (f : list event -> outcome A) :
  (forall h e, f h = Raise e -> isinstance e Exception = true) ->
  safe (call ev f).
Proof.
  intros H st e st'. unfold call. intros [= E _]. eapply H; eassumption.
Qed.

Lemma safe_try_except {A B : Type} (body : M A) (cls : pyclass)
    (handler : exn -> M B) (rest : A -> M B) :
  safe body ->
  (forall e, isinstance e Exception = true -> safe (handler e)) ->
  (forall a, safe (rest a)) ->
  safe (try_except body cls handler rest).
Proof.
  intros Hb Hh Hr st e st'. unfold try_except.
  destruct (body st) as [[a|e0] st1] eqn:E.
  - apply Hr.
  - pose proof (Hb _ _ _ E) as C. destruct (isinstance e0 cls).
    + apply Hh, C.
    + intros [= <- _]. exact C.
Qed.

Lemma safe_tokenizer_method (name : string) : safe (tokenizer_method name).
Proof.
  intros st e st'. unfold tokenizer_method.
  destruct (_tokenizer (self st)); [discriminate|].
  intros [= <- _]. reflexivity.
Qed.

Lemma safe_time_sleep (seconds : Z) : safe (time_sleep seconds).
Proof. intros st e st' H. discriminate. Qed.

Hypothesis framework : framework_raises_exceptions.

Lemma safe_load_model : safe _load_model.
Proof.
  destruct framework as (Hl & _).
  unfold _load_model. apply safe_bind; [apply safe_get_self|]. intros p.
  destruct (_model p); [apply safe_ret|].
  apply safe_bind; [apply safe_call; intros; eapply Hl; eassumption|].
  intros m. apply safe_bind; [|intros; apply safe_ret].
  intros st e st' H. discriminate.
Qed.

Lemma safe_get_stop_token_id (stop_str : string) :
  safe (_get_stop_token_id stop_str).
Proof.
  destruct framework as (_ & Hi & _).
  unfold _get_stop_token_id.
  apply safe_bind; [apply safe_tokenizer_method|]. intros t.
  apply safe_bind; [|intros; apply safe_ret].
  apply safe_call. intros; eapply Hi; eassumption.
Qed.

Lemma safe_retry_loop (model : Model) (inputs : Tensor) (n : nat) :
  forall attempt, safe (retry_loop model inputs n attempt).
Proof.
  destruct framework as (_ & _ & _ & Hg & _).
  induction n as [|n IH]; intros attempt; cbn [retry_loop];
    [apply safe_ret|].
  apply safe_try_except.
  - apply safe_bind; [apply safe_get_self|]. intros p.
    apply safe_bind; [apply safe_get_stop_token_id|]. intros eos.
    apply safe_call. intros; eapply Hg; eassumption.
  - intros e He. apply safe_bind; [apply safe_get_self|]. intros p.
    destruct (attempt =? retries p - 1); [now apply safe_raise|].
    apply safe_bind; [apply safe_time_sleep | intros; apply IH].
  - intros; apply safe_ret.
Qed.

Lemma safe_generate_and_decode (inputs : Tensor) :
  safe (generate_and_decode inputs).
Proof.
  destruct framework as (_ & _ & Hd & _ & Hx & Hdec).
  unfold generate_and_decode, _generate_output.
  apply safe_bind.
  - apply safe_bind; [apply safe_load_model|]. intros m.
    apply safe_bind; [apply safe_call; intros; eapply Hd; eassumption|].
    intros y. apply safe_bind; [apply safe_get_self|]. intros p.
    apply safe_retry_loop.
  - intros outputs. apply safe_bind; [apply safe_tokenizer_method|].
    intros t. apply safe_bind.
    + destruct outputs as [x|]; [|now apply safe_raise].
      intros st e st'. cbn. intros [= E _]. eapply Hx; eassumption.
    + intros ids. apply safe_call. intros; eapply Hdec; eassumption.
Qed.

End Safety.

(** The constructor raises exactly what the loading of the tokenizer
    raises. *)
Lemma init_raises (R : Runtime) (a b : option string) (dev : string)
    (mnt : Z) (temp : Q) (rt : Z) (log : list event) (e : exn) :
  fst (__init__ a b dev mnt temp rt log) = Raise e <->
  exists mid tok, tokenizer_from_pretrained log mid tok = Raise e /\
                  snd (__init__ a b dev mnt temp rt log)
                  = (log ++ [TokenizerFromPretrained mid tok])%list.
Proof.
  rewrite init_outcome. cbv zeta.
  destruct (tokenizer_from_pretrained _ _ _) as [t|e0] eqn:E; cbn; split.
  - discriminate.
  - intros (mid & tok & H1 & H2). apply app_inj_tail in H2.
    destruct H2 as [_ H2]. injection H2 as <- <-. congruence.
  - intros [= <-]. eauto.
  - intros (mid & tok & H1 & H2). apply app_inj_tail in H2.
    destruct H2 as [_ H2]. injection H2 as <- <-. congruence.
Qed.

(** C3, where the code departs from it: a failure while the prompt is
    encoded, which happens before the [try] statement, is raised to the
    caller of [parse]. *)
Lemma parse_raises_encoding_failure :
  fst (@parse (Script.runtime false (fun _ => false) Script.reply_with_json)
         "Find listings under 600000 in wildfire zones"
         (Script.fresh
            (Script.runtime false (fun _ => false) Script.reply_with_json) tt))
  = Raise (mk_exn RuntimeError "Unable to create tensor").
Proof. vm_compute. reflexivity. Qed.

(** C3, amended.  Once the tokenizer is loaded and the prompt is encoded,
    whatever the framework raises (an exception deriving from [Exception])
    while the model is loaded, moved to, asked or decoded ends up in a
    dictionary, and so do a missing pair of markers and a payload that
    [json.loads] rejects with [JSONDecodeError]: [parse] returns the decoded
    value or one of the three error records.  The one run that ends
    otherwise is that in which [json.loads] itself raises an exception of
    another class on the payload, which is the departure stated under C10. *)
Theorem parse_returns_once_prompt_encoded (R : Runtime) (query : string)
    (st : state) (t : Tokenizer) (inputs : Tensor) :
  _tokenizer (self st) = Some t ->
  tokenizer_encode (trace st) t (_build_prompt query) = Return inputs ->
  framework_raises_exceptions ->
  (exists v,
      fst (parse query st) = Return v /\
      ((exists detail, v = generation_failure detail) \/
       (exists raw, v = no_json_found raw) \/
       (exists raw, v = parse_failure raw) \/
       (exists payload, json_loads payload = Return v)))
  \/
  (exists e payload,
      fst (parse query st) = Raise e /\
      json_loads payload = Raise e /\
      isinstance e JSONDecodeError = false).
Proof.
  intros Ht He Hf.
  unfold parse, bind, tokenizer_method, call, try_except. rewrite Ht, He.
  destruct (generate_and_decode inputs _) as [[decoded|e] st1] eqn:G.
  - cbn [fst].
    destruct (extract_json_outcome R decoded)
      as [(v & E & [->|[->|P]]) | (e & payload & E & L & C)]; rewrite E.
    + left. eexists. split; [reflexivity|]. right; left.
      eexists. reflexivity.
    + left. eexists. split; [reflexivity|]. right; right; left.
      eexists. reflexivity.
    + left. eexists. split; [reflexivity|]. do 3 right. exact P.
    + right. exists e, payload. auto.
  - rewrite (safe_generate_and_decode Hf inputs _ _ _ G). cbn [fst ret].
    left. eexists. split; [reflexivity|]. left. eexists. reflexivity.
Qed.

Lemma parse_returns_once_prompt_encoded_witness :
  exists v,
    fst (@parse Script.failing "Find listings under 600000 in wildfire zones"
           (Script.fresh Script.failing tt)) = Return v /\
    ((exists detail, v = generation_failure detail) \/
     (exists raw, v = no_json_found raw) \/
     (exists raw, v = parse_failure raw) \/
     (exists payload, Json.loads payload = Return v)).
Proof.
  destruct (parse_returns_once_prompt_encoded Script.failing
              "Find listings under 600000 in wildfire zones"
              (Script.fresh Script.failing tt) tt
              (Script.Batch
                 [Script.codes
                    (_build_prompt
                       "Find listings under 600000 in wildfire zones")]))
    as [H | (e & payload & _ & L & C)].
  - reflexivity.
  - reflexivity.
  - repeat split; intros until e; cbn.
    + discriminate.
    + discriminate.
    + discriminate.
    + intros [= <-]; reflexivity.
    + destruct x as [[|r rows]|ids]; intros [= <-]; reflexivity.
    + destruct x; intros [= <-]; reflexivity.
  - exact H.
  - exfalso. rewrite (loads_raises_decode_error payload e L) in C.
    discriminate.
Defined.

(* ================================================================== *)
(** * Further properties of the code *)

(** ** The prompt of a one-line query *)

(** X1.  For a query without line feed, [_build_prompt] yields the
    instruction block without the indentation of the source file, then the
    label [User:], the query as it is, and a line feed. *)
Theorem build_prompt_of_one_line (query : string) :
  single_line query = true ->
  _build_prompt query = instruction_block ++ "User: " ++ query ++ nl.
Proof. intros H. now rewrite (build_prompt_single_line query H). Qed.

Lemma build_prompt_of_one_line_witness :
  _build_prompt "Find listings under 600000 in wildfire zones"
  = instruction_block ++ "User: "
    ++ "Find listings under 600000 in wildfire zones" ++ nl.
Proof.
  apply (build_prompt_of_one_line
           "Find listings under 600000 in wildfire zones").
  reflexivity.
Defined.

(** ** What follows a pair of markers *)

Section Suffix.
Context {R : Runtime}.

Local Open Scope nat_scope.

Lemma prefix_empty (s : string) : String.prefix EmptyString s = true.
Proof. destruct s; reflexivity. Qed.

Lemma take_app_short (n : nat) (s t : string) :
  n <= String.length s -> take n (s ++ t) = take n s.
Proof.
  revert s; induction n as [|n IH]; intros [|c s]; simpl; intros H;
    try reflexivity; try lia.
  rewrite IH; [reflexivity | lia].
Qed.

(** An occurrence found in [x] is found, at the same place, in a text that
    starts with [x]. *)
Lemma search_app_stable (sub x y : string) (k : nat) :
  search sub x = Some k -> search sub (x ++ y) = Some k.
Proof.
  revert k; induction x as [|c x IH]; intros k; cbn [search].
  - destruct (String.prefix sub EmptyString) eqn:P; [|discriminate].
    intros [= <-]. destruct sub; [|discriminate].
    simpl. destruct y; reflexivity.
  - destruct (String.prefix sub (String c x)) eqn:P.
    + intros [= <-]. change (String c x ++ y)%string with (String c (x ++ y)).
      cbn [search]. change (String c (x ++ y)) with (String c x ++ y)%string.
      rewrite prefix_app_long, P by now apply prefix_length. reflexivity.
    + destruct (search sub x) as [k'|] eqn:Q; [|discriminate].
      cbn [option_map]. intros [= <-].
      pose proof (search_bound _ _ _ Q) as B.
      change (String c x ++ y)%string with (String c (x ++ y)).
      cbn [search]. change (String c (x ++ y)) with (String c x ++ y)%string.
      rewrite prefix_app_long, P by (simpl; lia).
      now rewrite (IH k' eq_refl).
Qed.

Local Open Scope Z_scope.

Lemma len_app (a b : string) : len (a ++ b) = len a + len b.
Proof. unfold len. rewrite length_app. lia. Qed.

Lemma find_app_stable (a b sub : string) (from i : Z) :
  0 <= from -> find a sub from = i -> i <> -1 -> find (a ++ b) sub from = i.
Proof.
  intros Hf E Hi. unfold find in *. rewrite len_app.
  replace (from <? 0) with false in * by (symmetry; apply Z.ltb_ge; lia).
  destruct (len a <? from) eqn:L; [congruence|]. apply Z.ltb_ge in L.
  replace (len a + len b <? from) with false
    by (symmetry; apply Z.ltb_ge; unfold len in *; lia).
  destruct (search sub (drop (Z.to_nat from) a)) as [k|] eqn:Q; [|congruence].
  rewrite drop_app_short by (unfold len in L; lia).
  now rewrite (search_app_stable _ _ b _ Q).
Qed.

Lemma slice_app_stable (a b : string) (i j : Z) :
  0 <= i <= j -> j <= len a -> slice (a ++ b) i j = slice a i j.
Proof.
  intros H1 H2. rewrite !slice_inside by (rewrite ?len_app; unfold len in *; lia).
  unfold len in *. rewrite drop_app_short by lia.
  apply take_app_short. rewrite length_drop. lia.
Qed.

Lemma extract_json_with_suffix (a b : string) (i j : Z) :
  find a start_marker 0 = i -> i <> -1 ->
  find a end_marker i = j -> j <> -1 ->
  _extract_json (a ++ b)
  = decoded_payload (a ++ b) (strip (slice a (i + len start_marker) j)).
Proof.
  intros Ei Hi Ej Hj.
  pose proof (find_first_at _ _ _ _ (Z.le_refl 0) Ei Hi) as Fi.
  assert (I0 : 0 <= i) by apply Fi.
  pose proof (find_first_at _ _ _ _ I0 Ej Hj) as Fj.
  assert (Oi : occurs_at start_marker a i = true) by apply Fi.
  apply (end_after_start a i j Oi) in Fj.
  assert (Oj : occurs_at end_marker a j = true) by apply Fj.
  assert (Hij : i + len start_marker <= j) by apply Fj.
  apply occurs_at_true in Oj. change (len end_marker) with 14 in Oj.
  change (len start_marker) with 16 in *.
  unfold _extract_json.
  rewrite (find_app_stable a b _ 0 i (Z.le_refl 0) Ei Hi).
  rewrite (find_app_stable a b _ i j I0 Ej Hj).
  replace (i =? -1) with false by (symmetry; apply Z.eqb_neq; lia).
  replace (j =? -1) with false by (symmetry; apply Z.eqb_neq; lia).
  change (len start_marker) with 16.
  rewrite slice_app_stable by lia. reflexivity.
Qed.

End Suffix.

(** X2.  When a text holds a start marker and an end marker after it, what
    is appended to the text plays no part in what is decoded: with or
    without the suffix, [_extract_json] hands the same payload to the JSON
    decoder, and a value decoded from the text is returned for the longer
    text too. *)
Theorem extract_json_ignores_suffix (R : Runtime) (text suffix : string)
    (i j : Z) :
  find text start_marker 0 = i -> i <> -1 ->
  find text end_marker i = j -> j <> -1 ->
  let payload := strip (slice text (i + len start_marker) j) in
  _extract_json text = decoded_payload text payload /\
  _extract_json (text ++ suffix) = decoded_payload (text ++ suffix) payload /\
  forall v, json_loads payload = Return v ->
            _extract_json text = Return v /\
            _extract_json (text ++ suffix) = Return v.
Proof.
  intros Ei Hi Ej Hj payload.
  pose proof (extract_json_with_suffix text suffix i j Ei Hi Ej Hj) as E2.
  pose proof (extract_json_with_suffix text EmptyString i j Ei Hi Ej Hj) as E1.
  rewrite app_empty_r in E1. fold payload in E1, E2.
  split; [exact E1 | split; [exact E2|]].
  intros v Hv. rewrite E1, E2. unfold decoded_payload. now rewrite Hv.
Qed.

Lemma extract_json_ignores_suffix_witness :
  @_extract_json (Script.working EmptyString)
    (Script.reply_with_list ++ " or <<<JSON_START>>> [3] <<<JSON_END>>>")
  = Return (PyList [PyInt 1; PyInt 2]).
Proof.
  destruct (extract_json_ignores_suffix (Script.working EmptyString)
              Script.reply_with_list
              " or <<<JSON_START>>> [3] <<<JSON_END>>>" 0 24)
    as (_ & _ & H).
  - vm_compute. reflexivity.
  - discriminate.
  - vm_compute. reflexivity.
  - discriminate.
  - apply (H (PyList [PyInt 1; PyInt 2])). vm_compute. reflexivity.
Defined.

(** ** A model that repeats its prompt *)

(** X3.  The prompt of a one-line query holds the two markers itself.  So
    when the text to extract from starts with the prompt, as the decoded
    output of a model that repeats its input does, [_extract_json] takes
    the pattern of the template for the payload, whatever the query and
    whatever the model added; when the decoder rejects the pattern the
    result is the parse failure record, never the added JSON. *)
Theorem extract_json_of_echoed_prompt (R : Runtime)
    (query completion : string) :
  single_line query = true ->
  let text := _build_prompt query ++ completion in
  _extract_json text = decoded_payload text template_placeholder /\
  forall e, json_loads template_placeholder = Raise e ->
            isinstance e JSONDecodeError = true ->
            _extract_json text = Return (parse_failure text).
Proof.
  intros H text.
  assert (E : _extract_json text = decoded_payload text template_placeholder).
  { subst text. rewrite (build_prompt_single_line query H).
    unfold spec_prompt. rewrite app_assoc.
    rewrite (extract_json_with_suffix instruction_block _ 227 352);
      [reflexivity | vm_compute; reflexivity | discriminate
       | vm_compute; reflexivity | discriminate]. }
  split; [exact E|]. intros e He Hc. rewrite E. unfold decoded_payload.
  now rewrite He, Hc.
Qed.

Lemma extract_json_of_echoed_prompt_witness :
  @_extract_json (Script.working EmptyString)
    (_build_prompt "Find listings under 600000 in wildfire zones"
     ++ Script.reply_with_json)
  = Return (parse_failure
              (_build_prompt "Find listings under 600000 in wildfire zones"
               ++ Script.reply_with_json)).
Proof.
  destruct (extract_json_of_echoed_prompt (Script.working EmptyString)
              "Find listings under 600000 in wildfire zones"
              Script.reply_with_json) as [_ H].
  - reflexivity.
  - apply (H (mk_exn JSONDecodeError "Expecting value")).
    + vm_compute. reflexivity.
    + reflexivity.
Defined.

(** ** What a call of [parse] costs *)

Section BudgetFacts.
Context {R : Runtime}.

Lemma seconds_slept_app (h k : list event) :
  seconds_slept (h ++ k) = seconds_slept h + seconds_slept k.
Proof.
  induction h as [|ev h IH]; simpl; [reflexivity|].
  destruct ev; simpl; rewrite IH; lia.
Qed.

Lemma decode_calls_app (h k : list event) :
  decode_calls (h ++ k) = (decode_calls h + decode_calls k)%nat.
Proof.
  induction h as [|ev h IH]; simpl; [reflexivity|].
  destruct ev; simpl; rewrite IH; reflexivity.
Qed.

Lemma spent_refl (st : state) : spent 0 0 0 0 st st.
Proof.
  split; [reflexivity|]. exists []. rewrite app_nil_r. cbn.
  repeat split; lia.
Qed.

Lemma spent_trans (g1 g2 : nat) (s1 s2 : Z) (l1 l2 d1 d2 : nat)
    (a b c : state) :
  spent g1 s1 l1 d1 a b -> spent g2 s2 l2 d2 b c ->
  spent (g1 + g2) (s1 + s2) (l1 + l2) (d1 + d2) a c.
Proof.
  intros (R1 & e1 & E1 & G1 & S1 & L1 & D1) (R2 & e2 & E2 & G2 & S2 & L2 & D2).
  split; [congruence|]. exists (e1 ++ e2)%list.
  rewrite E2, E1, <- List.app_assoc, generate_calls_app, seconds_slept_app,
    model_loads_app, decode_calls_app.
  repeat split; lia.
Qed.

Lemma spent_weaken (g g' : nat) (s s' : Z) (l l' d d' : nat) (a b : state) :
  spent g s l d a b ->
  (g <= g')%nat -> s <= s' -> (l <= l')%nat -> (d <= d')%nat ->
  spent g' s' l' d' a b.
Proof.
  intros (R1 & e1 & E1 & G1 & S1 & L1 & D1) Hg Hs Hl Hd.
  split; [exact R1|]. exists e1. repeat split; try assumption; lia.
Qed.

Lemma budget_weaken {A : Type} (r : Z) (g g' : nat) (s s' : Z)
    (l l' d d' : nat) (m : M A) :
  budget r g s l d m ->
  (g <= g')%nat -> s <= s' -> (l <= l')%nat -> (d <= d')%nat ->
  budget r g' s' l' d' m.
Proof. intros H ? ? ? ? st Hr. eapply spent_weaken; eauto. Qed.

(** A method that leaves the state alone costs nothing. *)
Lemma budget_still {A : Type} (r : Z) (m : M A) :
  (forall st, snd (m st) = st) -> budget r 0 0 0 0 m.
Proof. intros H st _. rewrite H. apply spent_refl. Qed.

Lemma budget_bind {A B : Type} (r : Z) (g1 g2 : nat) (s1 s2 : Z)
    (l1 l2 d1 d2 : nat) (m : M A) (f : A -> M B) :
  0 <= s2 ->
  budget r g1 s1 l1 d1 m -> (forall a, budget r g2 s2 l2 d2 (f a)) ->
  budget r (g1 + g2) (s1 + s2) (l1 + l2) (d1 + d2) (bind m f).
Proof.
  intros H2 Hm Hf st Hr. unfold bind. specialize (Hm st Hr).
  destruct (m st) as [[a|e] st1]; cbn [snd] in *.
  - eapply spent_trans; [exact Hm|]. apply Hf. destruct Hm as [Q _]. congruence.
  - eapply spent_weaken; [exact Hm | lia ..].
Qed.

(** The parser read by [get_self] has the retry count of the budget. *)
Lemma budget_with_self {A : Type} (r : Z) (g : nat) (s : Z) (l d : nat)
    (f : parser -> M A) :
  (forall p, retries p = r -> budget r g s l d (f p)) ->
  budget r g s l d (bind get_self f).
Proof. intros H st Hr. unfold bind, get_self. now apply H. Qed.

Lemma budget_try_except {A B : Type} (r : Z) (g1 g2 : nat) (s1 s2 : Z)
    (l1 l2 d1 d2 : nat) (body : M A) (cls : pyclass)
    (handler : exn -> M B) (rest : A -> M B) :
  0 <= s2 ->
  budget r g1 s1 l1 d1 body ->
  (forall e, budget r g2 s2 l2 d2 (handler e)) ->
  (forall a, budget r g2 s2 l2 d2 (rest a)) ->
  budget r (g1 + g2) (s1 + s2) (l1 + l2) (d1 + d2)
    (try_except body cls handler rest).
Proof.
  intros H2 Hb Hh Hr st Hst. unfold try_except. specialize (Hb st Hst).
  assert (Q : forall st1, spent g1 s1 l1 d1 st st1 -> retries (self st1) = r)
    by (intros st1 [Q _]; congruence).
  destruct (body st) as [[a|e] st1]; cbn [snd] in *.
  - eapply spent_trans; [exact Hb | apply Hr; auto].
  - destruct (isinstance e cls).
    + eapply spent_trans; [exact Hb | apply Hh; auto].
    + eapply spent_weaken; [exact Hb | lia ..].
Qed.

(** A call that is neither [generate], nor a sleep, nor a loading, nor a
    decoding. *)
Lemma budget_call {A : Type} (r : Z) (ev : event)
    (f : list event -> outcome A) :
  generate_calls [ev] = O -> seconds_slept [ev] = 0 ->
  model_loads [ev] = O -> decode_calls [ev] = O ->
  budget r 0 0 0 0 (call ev f).
Proof.
  intros Hg Hs Hl Hd st _. split; [reflexivity|]. exists [ev].
  rewrite Hg, Hs, Hl, Hd. repeat split; lia.
Qed.

Lemma budget_tokenizer_method (r : Z) (name : string) :
  budget r 0 0 0 0 (tokenizer_method name).
Proof.
  apply budget_still. intros st. unfold tokenizer_method.
  now destruct (_tokenizer (self st)).
Qed.

Lemma budget_get_stop_token_id (r : Z) (stop_str : string) :
  budget r 0 0 0 0 (_get_stop_token_id stop_str).
Proof.
  unfold _get_stop_token_id.
  apply (budget_bind r 0 0 0 0 0 0 0 0); [lia | apply budget_tokenizer_method|].
  intros t. apply (budget_bind r 0 0 0 0 0 0 0 0); [lia | |].
  - now apply budget_call.
  - intros ids. now apply budget_still.
Qed.

Lemma budget_load_model (r : Z) : budget r 0 0 1 0 _load_model.
Proof.
  intros st Hr. unfold _load_model, bind, get_self, call, set_model, ret.
  destruct (_model (self st)); cbn [snd].
  - eapply spent_weaken; [apply spent_refl | lia ..].
  - destruct (model_from_pretrained _ _ _ _); cbn [snd self trace retries];
      (split; [reflexivity|]); eexists; (split; [reflexivity|]); cbn;
      repeat split; lia.
Qed.

(** One attempt: the stop token is looked up and [generate] is called. *)
Lemma budget_attempt (r : Z) (model : Model) (inputs : Tensor) :
  budget r 1 0 0 0
    (bind get_self (fun p =>
       bind (_get_stop_token_id "<<<JSON_END>>>") (fun eos =>
         call Generate
           (fun h => model_generate h model inputs (max_new_tokens p)
                       (temperature p) eos)))).
Proof.
  apply budget_with_self. intros p _.
  apply (budget_bind r 0 1 0 0 0 0 0 0);
    [lia | apply budget_get_stop_token_id|].
  intros eos st _. split; [reflexivity|]. exists [Generate]. cbn.
  repeat split; lia.
Qed.

(** The loop with [n] iterations left calls [generate] at most [n] times;
    when its last iteration is the one the handler takes for the last, it
    sleeps at most [n - 1] seconds. *)
Lemma budget_retry_loop (r : Z) (model : Model) (inputs : Tensor) (n : nat) :
  forall attempt,
    attempt + Z.of_nat n = r ->
    budget r n (Z.of_nat (Nat.pred n)) 0 0 (retry_loop model inputs n attempt).
Proof.
  induction n as [|n IH]; intros attempt Ha; cbn [retry_loop].
  - now apply budget_still.
  - apply (budget_weaken r (1 + n) _ (0 + Z.of_nat n) _ (0 + 0) _ (0 + 0) _);
      try lia.
    apply budget_try_except; [lia | apply budget_attempt | |].
    + intros e. apply budget_with_self. intros p Hp.
      destruct (attempt =? retries p - 1) eqn:E.
      * eapply budget_weaken; [now apply budget_still | lia ..].
      * apply Z.eqb_neq in E. destruct n as [|n]; [lia|].
        apply (budget_weaken r (0 + S n) _ (1 + Z.of_nat n) _ (0 + 0) _
                 (0 + 0) _); try lia.
        apply budget_bind; [lia | | intros _; apply IH; lia].
        intros st _. split; [reflexivity|]. exists [Sleep 1]. cbn.
        repeat split; lia.
    + intros outputs. eapply budget_weaken; [now apply budget_still | lia ..].
Qed.

Lemma budget_generate_output (r : Z) (inputs : Tensor) :
  budget r (Z.to_nat r) (Z.max 0 (r - 1)) 1 0 (_generate_output inputs).
Proof.
  unfold _generate_output.
  apply (budget_weaken r (0 + (0 + Z.to_nat r)) _
           (0 + (0 + Z.max 0 (r - 1))) _ (1 + (0 + 0)) _ (0 + (0 + 0)) _);
    try lia.
  apply budget_bind; [lia | apply budget_load_model|]. intros model.
  apply budget_bind; [lia | now apply budget_call|]. intros y.
  apply budget_with_self. intros p Hp. rewrite Hp.
  destruct (Z_le_gt_dec r 0) as [L|L].
  - replace (Z.to_nat r) with O by lia. cbn [retry_loop].
    eapply budget_weaken; [now apply budget_still | lia ..].
  - eapply budget_weaken; [apply budget_retry_loop | lia ..]. lia.
Qed.

Lemma budget_parse (r : Z) (query : string) :
  budget r (Z.to_nat r) (Z.max 0 (r - 1)) 1 1 (parse query).
Proof.
  unfold parse.
  apply (budget_weaken r (0 + (0 + (Z.to_nat r + 0))) _
           (0 + (0 + (Z.max 0 (r - 1) + 0))) _ (0 + (0 + (1 + 0))) _
           (0 + (0 + (1 + 0))) _); try lia.
  apply budget_bind; [lia | apply budget_tokenizer_method|]. intros t.
  apply budget_bind; [lia | now apply budget_call|]. intros inputs.
  apply budget_try_except; [lia | | |].
  - unfold generate_and_decode.
    apply (budget_weaken r (Z.to_nat r + (0 + (0 + 0))) _
             (Z.max 0 (r - 1) + (0 + (0 + 0))) _ (1 + (0 + (0 + 0))) _
             (0 + (0 + (0 + 1))) _); try lia.
    apply budget_bind; [lia | apply budget_generate_output|]. intros outputs.
    apply budget_bind; [lia | apply budget_tokenizer_method|]. intros t'.
    apply budget_bind; [lia | |].
    + apply budget_still. intros st. now destruct outputs.
    + intros ids st _. split; [reflexivity|]. exists [Decode]. cbn.
      repeat split; lia.
  - intros e. now apply budget_still.
  - intros decoded. now apply budget_still.
Qed.

End BudgetFacts.

(** X4.  Whatever the framework does, one call of [parse] calls [generate]
    at most [retries] times (never for a retry count of zero or less),
    sleeps at most [retries - 1] seconds in all, loads the model at most
    once, decodes at most once, and leaves the retry count as it was. *)
Theorem parse_budget (R : Runtime) (query : string) (st : state) :
  let r := retries (self st) in
  let st' := snd (parse query st) in
  retries (self st') = r /\
  exists ext,
    trace st' = (trace st ++ ext)%list /\
    (generate_calls ext <= Z.to_nat r)%nat /\
    0 <= seconds_slept ext <= Z.max 0 (r - 1) /\
    (model_loads ext <= 1)%nat /\
    (decode_calls ext <= 1)%nat.
Proof. intros r st'. exact (budget_parse r query st eq_refl). Qed.

(** ** Failures that pass *)

Section Recovery.
Context {R : Runtime}.

(** The loop gets over [k] failed calls of [generate] when more than [k]
    iterations are left. *)
Lemma retry_loop_recovers (m : Model) (x : Tensor) (t : Tokenizer)
    (out : Tensor) (base K : nat) :
  (forall h s, exists ids, tokenizer_encode_ids h t s = Return ids) ->
  fails_then_returns base K out ->
  forall k n attempt p h,
    _tokenizer p = Some t ->
    (k < n)%nat ->
    attempt + Z.of_nat n = retries p ->
    (generate_calls h + k = base + K)%nat ->
    retry_loop m x n attempt {| self := p; trace := h |}
    = (Return (Some out), {| self := p; trace := h ++ attempts (S k) |}).
Proof.
  intros Hi Hg. induction k as [|k IH]; intros n attempt p h Ht Hk Ha Hc;
    (destruct n as [|n]; [lia|]);
    destruct (Hi h "<<<JSON_END>>>") as [ids Hids];
    destruct (Hg (h ++ [EncodeIds "<<<JSON_END>>>"])%list m x
                (max_new_tokens p) (temperature p) (last_or_none ids))
      as [Hfail Hok];
    rewrite generate_calls_app in Hfail, Hok; cbn [generate_calls] in Hfail, Hok.
  - specialize (Hok ltac:(lia)).
    replace (h ++ attempts 1)%list
      with ((h ++ [EncodeIds "<<<JSON_END>>>"]) ++ [Generate])%list
      by (now rewrite <- List.app_assoc).
    cbn [retry_loop]. unfold try_except, bind at 1, get_self.
    cbn -[isinstance]. unfold bind.
    rewrite (get_stop_token_id_run p h t ids _ Ht Hids).
    unfold call. cbn -[isinstance]. rewrite Hok. reflexivity.
  - destruct Hfail as (e & He & Hcls); [lia|].
    rewrite attempts_step.
    specialize (IH n (attempt + 1) p
                  (((h ++ [EncodeIds "<<<JSON_END>>>"]) ++ [Generate])
                     ++ [Sleep 1])%list Ht ltac:(lia) ltac:(lia)).
    rewrite !generate_calls_app in IH. cbn [generate_calls] in IH.
    specialize (IH ltac:(lia)).
    rewrite <- !List.app_assoc in IH. cbn [app] in IH.
    cbn [retry_loop]. unfold try_except, bind at 1, get_self.
    cbn -[isinstance retry_loop]. unfold bind at 1.
    rewrite (get_stop_token_id_run p h t ids _ Ht Hids).
    unfold call at 1. cbn -[isinstance retry_loop]. rewrite He, Hcls.
    unfold bind at 1. cbn -[isinstance retry_loop].
    replace (attempt =? retries p - 1) with false
      by (symmetry; apply Z.eqb_neq; lia).
    cbn [self trace]. rewrite <- !List.app_assoc. cbn [app].
    rewrite IH. reflexivity.
Qed.

Lemma loading_generate_calls (p : parser) (h : list event) :
  generate_calls ((h ++ loading p) ++ [ToDevice]) = generate_calls h.
Proof.
  rewrite !generate_calls_app, (proj1 (loading_counts p)). cbn. lia.
Qed.

Lemma generate_output_recovers (t : Tokenizer) (x out : Tensor) (p : parser)
    (h : list event) (k : nat) :
  _tokenizer p = Some t ->
  generation_is_reached t ->
  Z.of_nat k < retries p ->
  fails_then_returns (generate_calls h) k out ->
  exists p',
    _generate_output x {| self := p; trace := h |}
    = (Return (Some out),
       {| self := p';
          trace := h ++ loading p ++ ToDevice :: attempts (S k) |}) /\
    _tokenizer p' = Some t /\ retries p' = retries p.
Proof.
  intros Ht (_ & Hl & Hd & Hi) Hk Hg.
  destruct (load_model_run p h Hl) as (m & p' & Hrun & T' & R' & _).
  destruct (Hd (h ++ loading p)%list m x) as [y Hy].
  exists p'. split; [|split; congruence].
  unfold _generate_output, bind at 1. rewrite Hrun.
  unfold bind at 1, call at 1. cbn [trace self]. rewrite Hy.
  unfold bind, get_self. cbn [self fst snd].
  rewrite (retry_loop_recovers m y t out (generate_calls h) k Hi Hg k
             (Z.to_nat (retries p')) 0 p');
    [ rewrite <- !List.app_assoc; reflexivity
    | congruence | lia | lia | now rewrite loading_generate_calls ].
Qed.

End Recovery.

(** X5.  When the first [k] calls of [generate] fail (with [k] below the
    retry count) and the next one answers, [parse] sleeps one second after
    each failure, decodes the answer once and returns what [_extract_json]
    makes of the decoded text: the failures leave no mark on the result. *)
Theorem parse_recovers_from_failures (R : Runtime) (query : string)
    (st : state) (t : Tokenizer) (k : nat) (out ids : Tensor)
    (text : string) :
  _tokenizer (self st) = Some t ->
  generation_is_reached t ->
  Z.of_nat k < retries (self st) ->
  fails_then_returns (generate_calls (trace st)) k out ->
  tensor_getitem0 out = Return ids ->
  (forall h, tokenizer_decode h t ids = Return text) ->
  exists st',
    parse query st = (_extract_json text, st') /\
    trace st'
    = (trace st ++ Encode (_build_prompt query) :: loading (self st)
         ++ ToDevice :: attempts (S k) ++ [Decode])%list /\
    seconds_slept (trace st') = seconds_slept (trace st) + Z.of_nat k.
Proof.
  intros Ht Hreach Hk Hg Hout Hdec. destruct st as [p h].
  cbn [self trace] in *.
  destruct (proj1 Hreach h (_build_prompt query)) as [x0 Hx0].
  destruct (generate_output_recovers t x0 out p
              (h ++ [Encode (_build_prompt query)])%list k Ht Hreach Hk)
    as (p' & Hrun & T' & _).
  { rewrite generate_calls_app. cbn. now rewrite Nat.add_0_r. }
  assert (L : seconds_slept (loading p) = 0)
    by (unfold loading; destruct (_model p); reflexivity).
  assert (A : forall n, seconds_slept (attempts (S n)) = Z.of_nat n).
  { induction n as [|n IHn]; [reflexivity|].
    rewrite attempts_step. cbn [seconds_slept]. rewrite IHn. lia. }
  eexists. split.
  - unfold parse, bind at 1, tokenizer_method. cbn [self]. rewrite Ht.
    unfold bind at 1, call at 1. cbn [trace self]. rewrite Hx0.
    unfold try_except, generate_and_decode, bind at 1. rewrite Hrun.
    unfold bind at 1, tokenizer_method. cbn [self]. rewrite T'.
    unfold bind at 1, getitem0. rewrite Hout.
    unfold call. cbn [trace self]. rewrite Hdec. reflexivity.
  - cbn [trace].
    match goal with
    | |- ?T = ?C /\ _ =>
        assert (E : T = C) by (rewrite <- !List.app_assoc; reflexivity);
        rewrite E
    end.
    split; [reflexivity|].
    rewrite seconds_slept_app. cbn [seconds_slept].
    rewrite seconds_slept_app, L. cbn [seconds_slept].
    rewrite seconds_slept_app, A. cbn [seconds_slept]. lia.
Qed.

Lemma parse_recovers_from_failures_witness :
  exists st',
    @parse Scenario.flaky "Find listings under 600000 in wildfire zones"
      (Scenario.parser_with Scenario.flaky tt 3)
    = (Return Script.listing_value, st') /\
    seconds_slept (trace st') = 2.
Proof.
  destruct (parse_recovers_from_failures Scenario.flaky
              "Find listings under 600000 in wildfire zones"
              (Scenario.parser_with Scenario.flaky tt 3) tt 2
              (Script.Batch [Script.codes Script.reply_with_json])
              (Script.Ids (Script.codes Script.reply_with_json))
              Script.reply_with_json)
    as (st' & Hp & _ & Hs).
  - reflexivity.
  - repeat split; intros; eexists; reflexivity.
  - reflexivity.
  - intros h m x n temp eos. split; intros H.
    + unfold model_generate, Scenario.flaky, Scenario.runtime.
      destruct (generate_calls h) as [|[|c]];
        [eexists; split; reflexivity .. | cbn in H; lia].
    + unfold model_generate, Scenario.flaky, Scenario.runtime.
      rewrite H. reflexivity.
  - reflexivity.
  - intros h. vm_compute. reflexivity.
  - exists st'. split; [|exact Hs]. rewrite Hp. reflexivity.
Defined.

(** X6.  When [generate] answers but the decoding of the answer raises, the
    failure is reported under the heading of the generation:
    [parse] returns [{error: Model generation failed: <text of the
    exception>}], and neither [generate] nor the decoding is tried again. *)
Theorem parse_reports_decoding_failure (R : Runtime) (query : string)
    (st : state) (t : Tokenizer) (out ids : Tensor) (e : exn) :
  _tokenizer (self st) = Some t ->
  generation_is_reached t ->
  0 < retries (self st) ->
  fails_then_returns (generate_calls (trace st)) 0 out ->
  tensor_getitem0 out = Return ids ->
  (forall h, tokenizer_decode h t ids = Raise e) ->
  isinstance e Exception = true ->
  exists st',
    parse query st = (Return (generation_failure (exn_str e)), st') /\
    trace st'
    = (trace st ++ Encode (_build_prompt query) :: loading (self st)
         ++ [ToDevice; EncodeIds "<<<JSON_END>>>"; Generate; Decode])%list.
Proof.
  intros Ht Hreach Hk Hg Hout Hdec Hcls. destruct st as [p h].
  cbn [self trace] in *.
  destruct (proj1 Hreach h (_build_prompt query)) as [x0 Hx0].
  destruct (generate_output_recovers t x0 out p
              (h ++ [Encode (_build_prompt query)])%list 0 Ht Hreach Hk)
    as (p' & Hrun & T' & _).
  { rewrite generate_calls_app. cbn. now rewrite Nat.add_0_r. }
  eexists. split.
  - unfold parse, bind at 1, tokenizer_method. cbn [self]. rewrite Ht.
    unfold bind at 1, call at 1. cbn [trace self]. rewrite Hx0.
    unfold try_except, generate_and_decode, bind at 1. rewrite Hrun.
    unfold bind at 1, tokenizer_method. cbn [self]. rewrite T'.
    unfold bind at 1, getitem0. rewrite Hout.
    unfold call. cbn [trace self]. rewrite Hdec, Hcls. reflexivity.
  - cbn [trace]. rewrite <- !List.app_assoc. reflexivity.
Qed.

Lemma parse_reports_decoding_failure_witness :
  exists st',
    @parse Scenario.undecodable "Find listings under 600000 in wildfire zones"
      (Scenario.parser_with Scenario.undecodable tt 3)
    = (Return (generation_failure "invalid token id"), st') /\
    trace st'
    = [Encode (_build_prompt "Find listings under 600000 in wildfire zones");
       ModelFromPretrained "Meta-Llama-3-8B-Instruct" "auto" None;
       ToDevice; EncodeIds "<<<JSON_END>>>"; Generate; Decode].
Proof.
  apply (parse_reports_decoding_failure Scenario.undecodable
           "Find listings under 600000 in wildfire zones"
           (Scenario.parser_with Scenario.undecodable tt 3) tt
           (Script.Batch [Script.codes Script.reply_with_json])
           (Script.Ids (Script.codes Script.reply_with_json))
           (mk_exn ValueError "invalid token id")).
  - reflexivity.
  - repeat split; intros; eexists; reflexivity.
  - reflexivity.
  - intros h m x n temp eos. cbn. split; [lia | reflexivity].
  - reflexivity.
  - reflexivity.
  - reflexivity.
Defined.

(** ** Failures that end the call *)

(** X7.  When the model cannot be loaded, [parse] reports the failure of
    the loading as [{error: Model generation failed: <text>}] at once: it
    does not retry, call [generate] or sleep, and the parser still holds no
    model, so that the next call tries to load it again. *)
Theorem parse_reports_loading_failure (R : Runtime) (query : string)
    (st : state) (t : Tokenizer) (inputs : Tensor) (e : exn) :
  _tokenizer (self st) = Some t ->
  _model (self st) = None ->
  tokenizer_encode (trace st) t (_build_prompt query) = Return inputs ->
  model_from_pretrained (trace st ++ [Encode (_build_prompt query)])
    (model_id (self st)) (device (self st)) (hf_token (self st)) = Raise e ->
  isinstance e Exception = true ->
  parse query st
  = (Return (generation_failure (exn_str e)),
     {| self := self st;
        trace := trace st
                 ++ [Encode (_build_prompt query);
                     ModelFromPretrained (model_id (self st))
                       (device (self st)) (hf_token (self st))] |}).
Proof.
  intros Ht Hm He Hl Hc. destruct st as [p h]. cbn [self trace] in *.
  unfold parse, bind at 1, tokenizer_method. cbn [self]. rewrite Ht.
  unfold bind at 1, call at 1. cbn [trace self]. rewrite He.
  unfold try_except, generate_and_decode, bind at 1, _generate_output,
    bind at 1, _load_model, bind at 1, get_self.
  cbn [self fst snd]. rewrite Hm.
  unfold bind at 1, call at 1. cbn [trace self]. rewrite Hl, Hc.
  unfold ret, generation_failure. rewrite <- List.app_assoc. reflexivity.
Qed.

Lemma parse_reports_loading_failure_witness :
  @parse Scenario.unloadable "Find listings under 600000 in wildfire zones"
    (Scenario.parser_with Scenario.unloadable tt 3)
  = (Return (generation_failure "model not found"),
     {| self := self (Scenario.parser_with Scenario.unloadable tt 3);
        trace :=
          [Encode
             (_build_prompt "Find listings under 600000 in wildfire zones");
           ModelFromPretrained "Meta-Llama-3-8B-Instruct" "auto" None] |}).
Proof.
  apply (parse_reports_loading_failure Scenario.unloadable
           "Find listings under 600000 in wildfire zones"
           (Scenario.parser_with Scenario.unloadable tt 3) tt
           (Script.Batch
              [Script.codes
                 (_build_prompt
                    "Find listings under 600000 in wildfire zones")])
           (mk_exn RuntimeError "model not found")); reflexivity.
Defined.

(** X8.  An exception that does not derive from [Exception], such as an
    interrupt from the keyboard, is neither retried nor turned into a
    dictionary: raised by the first call of [generate], it leaves [parse]
    as it is, after that one call and without any sleep. *)
Theorem parse_lets_interrupt_through (R : Runtime) (query : string)
    (st : state) (t : Tokenizer) (e : exn) :
  _tokenizer (self st) = Some t ->
  generation_is_reached t ->
  0 < retries (self st) ->
  (forall h m x n temp eos, model_generate h m x n temp eos = Raise e) ->
  isinstance e Exception = false ->
  exists st',
    parse query st = (Raise e, st') /\
    trace st'
    = (trace st ++ Encode (_build_prompt query) :: loading (self st)
         ++ [ToDevice; EncodeIds "<<<JSON_END>>>"; Generate])%list.
Proof.
  intros Ht (He & Hl & Hd & Hi) Hr Hg Hc. destruct st as [p h].
  cbn [self trace] in *.
  destruct (He h (_build_prompt query)) as [x0 Hx0].
  destruct (load_model_run p (h ++ [Encode (_build_prompt query)])%list Hl)
    as (m & p' & Hrun & T' & R' & _).
  destruct (Hd ((h ++ [Encode (_build_prompt query)]) ++ loading p)%list m x0)
    as [y Hy].
  destruct (Hi (((h ++ [Encode (_build_prompt query)]) ++ loading p)
                  ++ [ToDevice])%list "<<<JSON_END>>>") as [ids Hids].
  destruct (Z.to_nat (retries p')) as [|n] eqn:N; [lia|].
  eexists. split.
  - unfold parse, bind at 1, tokenizer_method. cbn [self]. rewrite Ht.
    unfold bind at 1, call at 1. cbn [trace self]. rewrite Hx0.
    unfold try_except at 1, generate_and_decode, bind at 1, _generate_output,
      bind at 1.
    rewrite Hrun. unfold bind at 1, call at 1. cbn [trace self]. rewrite Hy.
    unfold bind at 1, get_self. cbn [self fst snd]. rewrite N.
    cbn [retry_loop]. unfold try_except at 1, bind at 1, get_self.
    cbn [self fst snd]. unfold bind at 1.
    rewrite (get_stop_token_id_run p' _ t ids _ (eq_trans T' Ht) Hids).
    unfold call at 1. cbn [trace self]. rewrite Hg, Hc, Hc. reflexivity.
  - cbn [trace]. rewrite <- !List.app_assoc. reflexivity.
Qed.

Lemma parse_lets_interrupt_through_witness :
  exists st',
    @parse Scenario.interrupted "Find listings under 600000 in wildfire zones"
      (Scenario.parser_with Scenario.interrupted tt 3)
    = (Raise (mk_exn KeyboardInterrupt EmptyString), st') /\
    trace st'
    = [Encode (_build_prompt "Find listings under 600000 in wildfire zones");
       ModelFromPretrained "Meta-Llama-3-8B-Instruct" "auto" None;
       ToDevice; EncodeIds "<<<JSON_END>>>"; Generate].
Proof.
  apply (parse_lets_interrupt_through Scenario.interrupted
           "Find listings under 600000 in wildfire zones"
           (Scenario.parser_with Scenario.interrupted tt 3) tt
           (mk_exn KeyboardInterrupt EmptyString)).
  - reflexivity.
  - repeat split; intros; eexists; reflexivity.
  - reflexivity.
  - reflexivity.
  - reflexivity.
Defined.

(** X9.  With a retry count of zero or less the loop of [_generate_output]
    runs no iteration: [parse] still encodes the prompt, loads the model and
    moves the input, but it never calls [generate] nor the decoder, and it
    returns the record whose detail is the failure of indexing [None]. *)
Theorem parse_with_no_retries (R : Runtime) (query : string) (st : state)
    (t : Tokenizer) :
  retries (self st) <= 0 ->
  _tokenizer (self st) = Some t ->
  generation_is_reached t ->
  exists st',
    parse query st
    = (Return (generation_failure "'NoneType' object is not subscriptable"),
       st') /\
    trace st'
    = (trace st ++ Encode (_build_prompt query) :: loading (self st)
         ++ [ToDevice])%list.
Proof.
  intros Hr Ht (He & Hl & Hd & _). destruct st as [p h]. cbn [self trace] in *.
  destruct (He h (_build_prompt query)) as [x0 Hx0].
  destruct (load_model_run p (h ++ [Encode (_build_prompt query)])%list Hl)
    as (m & p' & Hrun & T' & R' & _).
  destruct (Hd ((h ++ [Encode (_build_prompt query)]) ++ loading p)%list m x0)
    as [y Hy].
  eexists. split.
  - unfold parse, bind at 1, tokenizer_method. cbn [self]. rewrite Ht.
    unfold bind at 1, call at 1. cbn [trace self]. rewrite Hx0.
    unfold try_except, generate_and_decode, bind at 1, _generate_output,
      bind at 1.
    rewrite Hrun. unfold bind at 1, call at 1. cbn [trace self]. rewrite Hy.
    unfold bind at 1, get_self. cbn [self fst snd]. rewrite R'.
    replace (Z.to_nat (retries p)) with O by lia.
    cbn [retry_loop]. unfold ret at 1, bind at 1, tokenizer_method.
    cbn [self]. rewrite T', Ht. reflexivity.
  - cbn [trace]. rewrite <- !List.app_assoc. reflexivity.
Qed.

Lemma parse_with_no_retries_witness :
  exists st',
    @parse (Script.working Script.reply_with_json)
      "Find listings under 600000 in wildfire zones"
      (Scenario.parser_with (Script.working Script.reply_with_json) tt 0)
    = (Return (generation_failure "'NoneType' object is not subscriptable"),
       st') /\
    trace st'
    = [Encode (_build_prompt "Find listings under 600000 in wildfire zones");
       ModelFromPretrained "Meta-Llama-3-8B-Instruct" "auto" None;
       ToDevice].
Proof.
  apply (parse_with_no_retries (Script.working Script.reply_with_json)
           "Find listings under 600000 in wildfire zones"
           (Scenario.parser_with (Script.working Script.reply_with_json) tt 0)
           tt).
  - cbn. lia.
  - reflexivity.
  - repeat split; intros; eexists; reflexivity.
Defined.

(** ** The constructor and the stop token *)

(** X10.  The constructor makes one call into the framework, the loading of
    the tokenizer for the model identifier and the token it has resolved,
    and it raises exactly when that call raises; otherwise the parser holds
    that tokenizer and no model.  An empty model identifier or token counts
    as none given: the environment, or the default model, is used. *)
Theorem init_loads_the_tokenizer (R : Runtime) (a b : option string)
    (dev : string) (mnt : Z) (temp : Q) (rt : Z) (log : list event) :
  (exists mid tok,
     snd (__init__ a b dev mnt temp rt log)
     = (log ++ [TokenizerFromPretrained mid tok])%list /\
     match tokenizer_from_pretrained log mid tok with
     | Return t =>
         exists p, fst (__init__ a b dev mnt temp rt log) = Return p /\
                   _tokenizer p = Some t /\ _model p = None /\
                   model_id p = mid /\ hf_token p = tok
     | Raise e => fst (__init__ a b dev mnt temp rt log) = Raise e
     end) /\
  __init__ (Some EmptyString) b dev mnt temp rt log
  = __init__ None b dev mnt temp rt log /\
  __init__ a (Some EmptyString) dev mnt temp rt log
  = __init__ a None dev mnt temp rt log.
Proof.
  split; [|split].
  - rewrite init_outcome. cbv zeta. eexists _, _.
    destruct (tokenizer_from_pretrained _ _ _) as [t|e] eqn:E; cbn [fst snd];
      (split; [reflexivity|]); rewrite E; [|reflexivity].
    eexists. split; [reflexivity|]. cbn. auto.
  - now rewrite !init_outcome.
  - now rewrite !init_outcome.
Qed.

(** X11.  [_get_stop_token_id] hands back the last id of the encoding of
    the stop string, and [None] when the encoding is empty: it does not fail
    on an empty encoding.  It asks the tokenizer once. *)
Theorem stop_token_is_last_id (R : Runtime) (p : parser) (h : list event)
    (t : Tokenizer) (stop_str : string) (ids : list Z) :
  _tokenizer p = Some t ->
  tokenizer_encode_ids h t stop_str = Return ids ->
  _get_stop_token_id stop_str {| self := p; trace := h |}
  = (Return (hd_error (rev ids)),
     {| self := p; trace := h ++ [EncodeIds stop_str] |}).
Proof.
  intros Ht He. rewrite (get_stop_token_id_run p h t ids _ Ht He).
  do 2 f_equal. unfold last_or_none.
  destruct ids as [|z ids] using rev_ind; [reflexivity|].
  rewrite rev_app_distr. cbn [rev app hd_error].
  destruct (ids ++ [z])%list eqn:E; [now destruct ids|].
  rewrite <- E, last_last. reflexivity.
Qed.

Lemma stop_token_is_last_id_witness :
  @_get_stop_token_id (Script.working EmptyString) "<<<JSON_END>>>"
    (Script.fresh (Script.working EmptyString) tt)
  = (Return (Some 62),
     {| self := self (Script.fresh (Script.working EmptyString) tt);
        trace := [EncodeIds "<<<JSON_END>>>"] |}).
Proof.
  apply (stop_token_is_last_id (Script.working EmptyString)
           (self (Script.fresh (Script.working EmptyString) tt)) [] tt
           "<<<JSON_END>>>" (Script.codes "<<<JSON_END>>>")); reflexivity.
Defined.
